(** * gan2png: the GAN container decoder of [src/main.cpp]

    A shallow embedding of the decode pipeline (signature check, palette,
    header fields, nibble unpacking, hand-over to the PNG writer) together
    with the properties the design document states about it.

    Program integers are [Z]; unsigned arithmetic has the wrap-around of
    its C++ type written out, and the one signed product that can overflow
    is checked.  Bytes are [Byte.byte].  Every access to the file buffer and
    every [memcpy] into the pixel buffer is recorded in a trace.  The first
    operation the language leaves undefined (an access outside the array it
    targets, a signed overflow) closes the run with [Fault]: the model says
    where defined behaviour ends and nothing about what follows. *)

From Stdlib Require Import ZArith List Lia.
From Stdlib.Strings Require Import Byte.
From stdpp Require Import base tactics option list numbers.
Import ListNotations.
Local Open Scope Z_scope.

(** * The program *)

(** ** Machine integers *)

(** Modelled from the spec: [types.hpp] is not among the sources; its
    aliases [u8], [u16], [u32] and [u64] are taken as the unsigned integer
    types of 8, 16, 32 and 64 bits (the document gives the header fields as
    16-bit unsigned and the color channels as [u8]).  A conversion to one
    of them reduces modulo 2^8, 2^16, 2^32, 2^64. *)
Definition to_u8 (z : Z) : Z := z mod 2 ^ 8.
Definition to_u16 (z : Z) : Z := z mod 2 ^ 16.
Definition to_u32 (z : Z) : Z := z mod 2 ^ 32.
Definition to_u64 (z : Z) : Z := z mod 2 ^ 64.

(** The conversion to [int] (32 bits, two's complement), the type the
    operands of [*], [|], [<<], [&] and [>>] narrower than it are promoted
    to.  It is the identity on the range of [int]; the values it is applied
    to below (bytes, 16-bit fields, a byte shifted by 8, a 16-bit field
    times 4, the constant offsets) are all in that range.  The one [int]
    product that can leave it, [width * height], is a signed overflow and is
    treated apart, in [pixel_count]. *)
Definition to_int (z : Z) : Z := (z + 2 ^ 31) mod 2 ^ 32 - 2 ^ 31.

Definition INT_MIN : Z := - 2 ^ 31.
Definition INT_MAX : Z := 2 ^ 31 - 1.

Definition byteZ (b : byte) : Z := Z.of_N (Byte.to_N b).

#[global] Instance byte_eq_dec : EqDecision byte := Byte.byte_eq_dec.

(** ** Constants *)

Definition SIGNATURE_OFFSET : Z := 0x000.
Definition SIGNATURE_LENGTH : Z := 4.
Definition WIDTH_OFFSET : Z := 0x424.
Definition HEIGHT_OFFSET : Z := 0x426.
Definition PALETTE_OFFSET : Z := 0x430.
Definition IMAGE_OFFSET : Z := 0x470.

Definition PALETTE_SIZE : Z := 64.
Definition PIXEL_STRIDE : Z := 4.
Definition NUM_PALETTE_COLORS : Z := PALETTE_SIZE / PIXEL_STRIDE.

(** ** Runs: a trace of memory accesses and an outcome *)

Inductive event : Type :=
  | Load (off : Z)                     (* fileBuffer.data[off] *)
  | Store (off : Z) (src : list byte)  (* memcpy(&pixeldata[off], src, |src|) *).

(** [Fault] marks the first operation of a run the language leaves
    undefined: an access outside the bounds of its array, or an overflow of
    signed arithmetic.  The trace of such a run holds the accesses up to and
    including that operation.  What the program does from there on is not
    defined and not modelled: a run that ends in [Fault] says where defined
    behaviour ends, not that the process stops there. *)
Inductive outcome (A : Type) : Type :=
  | Done (a : A)
  | Fault        (* the first undefined operation *)
  | OutOfFuel    (* the loop bound of the model was too small *).
Arguments Done {A} a.
Arguments Fault {A}.
Arguments OutOfFuel {A}.

Definition run (A : Type) : Type := (list event * outcome A)%type.

Definition run_ret {A} (a : A) : run A := ([], Done a).

(** Sequencing.  A run that reached an undefined operation is not
    continued: the model follows the program up to there and no further. *)
Definition run_bind {A B} (f : A → run B) (m : run A) : run B :=
  match m with
  | (t, Done a) => let '(t', r) := f a in (t ++ t', r)
  | (t, Fault) => (t, Fault)
  | (t, OutOfFuel) => (t, OutOfFuel)
  end.

#[global] Instance run_mret : MRet run := @run_ret.
#[global] Instance run_mbind : MBind run := @run_bind.

Definition fault {A} : run A := ([], Fault).
Definition out_of_fuel {A} : run A := ([], OutOfFuel).

Definition trace {A} (m : run A) : list event := fst m.
Definition result {A} (m : run A) : outcome A := snd m.

(** Indexing an array with a program integer. *)
Definition at_index {A} (l : list A) (i : Z) : option A :=
  if decide (0 ≤ i) then l !! Z.to_nat i else None.

(** [for (u64 i = start; i < bound; i += step) s = body(i, s);] *)
Fixpoint for_u64 {S : Type} (fuel : nat) (i bound step : Z)
    (body : Z → S → run S) (s : S) : run S :=
  match fuel with
  | O => out_of_fuel
  | Datatypes.S fuel' =>
      if decide (i < bound) then
        s' ← body i s;
        for_u64 fuel' (to_u64 (i + step)) bound step body s'
      else mret s
  end.

(** ** The file buffer *)

(** [data] is the owned array; the null pointer of a default-constructed
    [Buffer] owns no byte, like the empty array. *)
Record Buffer : Type := mkBuffer { data : list byte; size : Z }.

Definition empty_Buffer : Buffer := {| data := []; size := 0 |}.

(** What the C library does with the path: [fopen_s] fails, or the file has
    [contents] and [fread] returns [readSize]. *)
Inductive file : Type :=
  | Unopenable
  | Opened (contents : list byte) (readSize : Z).

Definition readFromFile (f : file) : Buffer :=
  match f with
  | Unopenable => empty_Buffer
  | Opened contents readSize =>
      let fileSize := to_u64 (Z.of_nat (length contents)) in
      if decide (readSize ≠ fileSize) then empty_Buffer
      else {| data := contents; size := fileSize |}
  end.

(** [buffer.data[off]] *)
Definition load (buffer : Buffer) (off : Z) : run byte :=
  ([Load off],
   match at_index (data buffer) off with
   | Some b => Done b
   | None => Fault
   end).

(** ** validate_file *)

Definition ExpectedSignature : list byte := [x47; x41; x4e; x10].

Fixpoint validate_loop (fuel : nat) (buffer : Buffer) (i : Z) : run bool :=
  match fuel with
  | O => out_of_fuel
  | S fuel' =>
      if decide (i < SIGNATURE_LENGTH) then
        b ← load buffer (to_u64 (SIGNATURE_OFFSET + i));
        match at_index ExpectedSignature i with
        | Some e =>
            if decide (b ≠ e) then mret false
            else validate_loop fuel' buffer (to_u64 (i + 1))
        | None => fault
        end
      else mret true
  end.

Definition validate_file (buffer : Buffer) : run bool :=
  validate_loop (S (Z.to_nat SIGNATURE_LENGTH)) buffer 0.

(** ** to_png: the body of the loop over the directory entries *)

(** A row [u8[PIXEL_STRIDE]] of the palette, and the palette. *)
Abbreviation color := (list byte).
Abbreviation palette_t := (list (list byte)).

(** [u8 palette[NUM_PALETTE_COLORS][PIXEL_STRIDE] = { { 0, 0, 0, 0 } };] *)
Definition palette_init : palette_t :=
  replicate (Z.to_nat NUM_PALETTE_COLORS) (replicate (Z.to_nat PIXEL_STRIDE) x00).

(** [palette[i][j] = v;] *)
Definition palette_set (palette : palette_t) (i j : Z) (v : byte) : palette_t :=
  alter (λ row, <[Z.to_nat j := v]> row) (Z.to_nat i) palette.

Definition palette_body (buffer : Buffer) (i : Z) (palette : palette_t)
    : run palette_t :=
  let offset := to_u64 (PALETTE_OFFSET + to_u64 (i * PIXEL_STRIDE)) in
  r ← load buffer (to_u64 (offset + 0));
  let palette := palette_set palette i 0 r in
  g ← load buffer (to_u64 (offset + 1));
  let palette := palette_set palette i 1 g in
  b ← load buffer (to_u64 (offset + 2));
  let palette := palette_set palette i 2 b in
  mret (palette_set palette i 3 xff).

Definition read_palette (buffer : Buffer) : run palette_t :=
  for_u64 (Z.to_nat NUM_PALETTE_COLORS) 1 NUM_PALETTE_COLORS 1
    (palette_body buffer) palette_init.

(** [fileBuffer.data[off] | (fileBuffer.data[off + 1] << 8)], computed in
    [int] and converted to [u16]. *)
Definition read_u16 (buffer : Buffer) (off : Z) : run Z :=
  lo ← load buffer off;
  hi ← load buffer (to_int (off + 1));
  mret (to_u16 (to_int (Z.lor (byteZ lo) (to_int (Z.shiftl (byteZ hi) 8))))).

(** [const u32 count = width * height;]: both operands are promoted to
    [int] and the product is formed in [int].  A product outside the range
    of [int] is a signed overflow, which the language leaves undefined; a
    product in range is converted to [u32]. *)
Definition pixel_count (width height : Z) : run Z :=
  if decide (INT_MIN ≤ width * height ≤ INT_MAX)
  then mret (to_u32 (width * height))
  else fault.

(** [std::make_unique<u8[]>(PIXEL_STRIDE * count)]: the size is computed in
    32 bits, unsigned ([count] is a [u32]); the array is zero-initialised.
    The allocation is taken to succeed: a failed one throws
    [std::bad_alloc], which is outside this model. *)
Definition alloc_pixeldata (count : Z) : list byte :=
  replicate (Z.to_nat (to_u32 (PIXEL_STRIDE * count))) x00.

(** [palette[index]] *)
Definition palette_row (palette : palette_t) (index : Z) : run color :=
  match at_index palette index with
  | Some c => mret c
  | None => fault
  end.

(** [std::memcpy(&pixeldata[off], src, PIXEL_STRIDE)] *)
Definition memcpy (pixeldata : list byte) (off : Z) (src : color)
    : run (list byte) :=
  let src := take (Z.to_nat PIXEL_STRIDE) src in
  ([Store off src],
   if decide (off + PIXEL_STRIDE ≤ Z.of_nat (length pixeldata))
   then Done (list_inserts (Z.to_nat off) src pixeldata)
   else Fault).

(** Lines 104 to 112: one pixel pair. *)
Definition pair_body (buffer : Buffer) (palette : palette_t)
    (width y x : Z) (pixeldata : list byte) : run (list byte) :=
  let i1 := to_u64 (to_u64 (y * width) + x) in
  let i2 := to_u64 (i1 + 1) in
  byte ← load buffer (to_u64 (IMAGE_OFFSET + Z.shiftr i1 1));
  let index1 := to_u8 (Z.land (byteZ byte) 0x0F) in
  let index2 := to_u8 (Z.shiftr (byteZ byte) 4) in
  c1 ← palette_row palette index1;
  pixeldata ← memcpy pixeldata (to_u64 (i1 * PIXEL_STRIDE)) c1;
  c2 ← palette_row palette index2;
  memcpy pixeldata (to_u64 (i2 * PIXEL_STRIDE)) c2.

(** Lines 102 to 114: the two nested loops. *)
Definition unpack_row (buffer : Buffer) (palette : palette_t)
    (width y : Z) (pixeldata : list byte) : run (list byte) :=
  for_u64 (S (Z.to_nat width)) 0 width 2
    (pair_body buffer palette width y) pixeldata.

Definition unpack_pixels (buffer : Buffer) (palette : palette_t)
    (width height : Z) (pixeldata : list byte) : run (list byte) :=
  for_u64 (S (Z.to_nat height)) 0 height 1
    (unpack_row buffer palette width) pixeldata.

(** Modelled from the spec: [stb_image_write.h] is not among the sources;
    the writer is taken at its interface, [writeImage(path, width, height,
    pixels)] with the component count and the row stride the call passes.
    A call is recorded with its arguments (the output path apart), each
    converted to [int]. *)
Record png_call : Type := mkPng {
  png_w : Z;
  png_h : Z;
  png_comp : Z;
  png_data : list byte;
  png_stride : Z
}.

Inductive file_result : Type :=
  | Skipped
  | Written (call : png_call).

(** Lines 82 to 118, for the buffer read from one regular file. *)
Definition to_png_file (fileBuffer : Buffer) : run file_result :=
  valid ← validate_file fileBuffer;
  if negb valid then mret Skipped
  else
    palette ← read_palette fileBuffer;
    width ← read_u16 fileBuffer WIDTH_OFFSET;
    height ← read_u16 fileBuffer HEIGHT_OFFSET;
    count ← pixel_count width height;
    let pixeldata := alloc_pixeldata count in
    pixeldata ← unpack_pixels fileBuffer palette width height pixeldata;
    mret (Written {| png_w := to_int width;
                     png_h := to_int height;
                     png_comp := to_int PIXEL_STRIDE;
                     png_data := pixeldata;
                     png_stride := to_int (width * PIXEL_STRIDE) |}).

(** A directory entry: a regular file, or anything else. *)
Inductive dir_entry : Type :=
  | Regular (f : file)
  | Other.

(** Lines 75 to 118: one turn of the loop over the entries. *)
Definition to_png_entry (entry : dir_entry) (calls : list png_call)
    : run (list png_call) :=
  match entry with
  | Other => mret calls
  | Regular f =>
      r ← to_png_file (readFromFile f);
      match r with
      | Skipped => mret calls
      | Written c => mret (calls ++ [c])
      end
  end.

Fixpoint to_png_entries (entries : list dir_entry) (calls : list png_call)
    : run (list png_call) :=
  match entries with
  | [] => mret calls
  | e :: rest => calls' ← to_png_entry e calls; to_png_entries rest calls'
  end.

(** [to_png]: [None] is a path that is not a directory, [Some entries] the
    entries the recursive iterator yields.  The result is the returned
    flag and the calls made to the PNG writer. *)
Definition to_png (path : option (list dir_entry)) : run (bool * list png_call) :=
  match path with
  | None => mret (false, [])
  | Some entries => calls ← to_png_entries entries []; mret (true, calls)
  end.

(** * Specification-level definitions *)

(** ** The algorithm as the design document words it *)

(** The values [start, start + step, ...] below [bound]. *)
Definition steps (start bound step : Z) : list Z :=
  (λ k, start + k * step) <$> seqZ 0 ((bound - start + step - 1) / step).

Fixpoint foldM {A S : Type} (f : A → S → run S) (l : list A) (s : S) : run S :=
  match l with
  | [] => mret s
  | a :: l' => s' ← f a s; foldM f l' s'
  end.

(** Rows [y] in [[0, height)], and in each row [x] in [[0, width)] in steps
    of 2. *)
Definition pair_coords (width height : Z) : list (Z * Z) :=
  y ← seqZ 0 height; x ← steps 0 width 2; [(y, x)].

(** The pair whose first pixel has linear index [i1]: one byte of the
    bitmap, low nibble for [i1], high nibble for [i1 + 1]. *)
Definition pair_at (buffer : Buffer) (palette : palette_t) (i1 : Z)
    (pixels : list byte) : run (list byte) :=
  let i2 := i1 + 1 in
  b ← load buffer (IMAGE_OFFSET + i1 / 2);
  c1 ← palette_row palette (byteZ b mod 16);
  pixels ← memcpy pixels (i1 * 4) c1;
  c2 ← palette_row palette (byteZ b / 16);
  memcpy pixels (i2 * 4) c2.

Definition unpack_spec (buffer : Buffer) (palette : palette_t)
    (width height : Z) (pixels : list byte) : run (list byte) :=
  foldM (λ '(y, x), pair_at buffer palette (y * width + x))
    (pair_coords width height) pixels.

(** The unsigned 16-bit little-endian integer made of two bytes. *)
Definition le16 (lo hi : byte) : Z := byteZ lo + 256 * byteZ hi.

(** ** Palettes and the image a bitmap encodes *)

(** A palette as the program declares it: 16 rows of 4 bytes. *)
Definition wf_palette (palette : palette_t) : Prop :=
  length palette = 16%nat ∧ Forall (λ c : color, length c = 4%nat) palette.

(** The byte at an offset of the file (zero outside it), the palette row
    decoded from slot [i], and the loads that decode it. *)
Definition byte_at (buffer : Buffer) (off : Z) : byte :=
  default x00 (at_index (data buffer) off).

Definition palette_entry (buffer : Buffer) (i : Z) : color :=
  [byte_at buffer (PALETTE_OFFSET + i * 4);
   byte_at buffer (PALETTE_OFFSET + i * 4 + 1);
   byte_at buffer (PALETTE_OFFSET + i * 4 + 2);
   xff].

Definition palette_loads (i : Z) : list event :=
  [Load (PALETTE_OFFSET + i * 4); Load (PALETTE_OFFSET + i * 4 + 1);
   Load (PALETTE_OFFSET + i * 4 + 2)].

(** The byte that holds pixel [p], the palette index of [p] (low nibble for
    an even [p], high nibble for an odd one) and its color. *)
Definition bitmap_byte (buffer : Buffer) (p : Z) : byte :=
  default x00 (at_index (data buffer) (IMAGE_OFFSET + p / 2)).

Definition pixel_index (buffer : Buffer) (p : Z) : Z :=
  let b := byteZ (bitmap_byte buffer p) in
  if Z.even p then b mod 16 else b / 16.

Definition pixel_color (buffer : Buffer) (palette : palette_t) (p : Z) : color :=
  default [] (at_index palette (pixel_index buffer p)).

(** The accesses of the pair that starts at pixel [2 * k]. *)
Definition pair_events (buffer : Buffer) (palette : palette_t) (k : Z)
    : list event :=
  [Load (IMAGE_OFFSET + k);
   Store (2 * k * 4) (pixel_color buffer palette (2 * k));
   Store ((2 * k + 1) * 4) (pixel_color buffer palette (2 * k + 1))].

(** ** Observations on a run *)

(** The destinations of the [memcpy] calls of a run, in program order. *)
Definition store_offsets (t : list event) : list Z :=
  omap (λ e, match e with Store off _ => Some off | Load _ => None end) t.

(** The bytes of pixel [p] in a pixel buffer. *)
Definition pixel_at (pixels : list byte) (p : Z) : list byte :=
  take (Z.to_nat PIXEL_STRIDE) (drop (Z.to_nat (p * PIXEL_STRIDE)) pixels).

(** The first [n] pixels of the image handed to the PNG writer. *)
Definition first_pixels (n : nat) (r : file_result) : option (list byte) :=
  match r with
  | Written call => Some (take (n * 4) (png_data call))
  | Skipped => None
  end.

(** ** Sample files *)

(** A file image: signature, zero padding up to the header fields, the two
    16-bit fields, padding up to the palette, 64 palette bytes, bitmap. *)
Definition gan_bytes (w0 w1 h0 h1 : byte) (pal img : list byte) : list byte :=
  ExpectedSignature ++ replicate (0x424 - 4) x00 ++ [w0; w1; h0; h1]
  ++ replicate 8 x00 ++ pal ++ img.

Definition buffer_of (bytes : list byte) : Buffer :=
  {| data := bytes; size := Z.of_nat (length bytes) |}.

(** Slot 0 holds arbitrary bytes, slot 1 is red with a stored fourth byte
    of 7, the other slots are grey. *)
Definition sample_palette_bytes : list byte :=
  [xaa; xbb; xcc; xdd] ++ [xff; x00; x00; x07] ++ replicate 56 x11.

Definition sample_palette : palette_t :=
  [[x00; x00; x00; x00]; [xff; x00; x00; xff]]
  ++ replicate 14 [x11; x11; x11; xff].

(** The 4 by 2 image of the scenario: bitmap bytes 10 01 10 01. *)
Definition sample_buffer : Buffer :=
  buffer_of (gan_bytes x04 x00 x02 x00 sample_palette_bytes
               [x10; x01; x10; x01]).

(** A 3 by 1 image. *)
Definition odd_buffer : Buffer :=
  buffer_of (gan_bytes x03 x00 x01 x00 sample_palette_bytes [x10; x01]).

(** A header that announces 32768 by 32768 pixels, followed by the palette
    and one bitmap byte. *)
Definition huge_buffer : Buffer :=
  buffer_of (gan_bytes x00 x80 x00 x80 sample_palette_bytes [x00]).

(** A header that announces 65535 by 65535 pixels. *)
Definition overflow_buffer : Buffer :=
  buffer_of (gan_bytes xff xff xff xff sample_palette_bytes [x10]).

Definition red : color := [xff; x00; x00; xff].
Definition transparent : color := [x00; x00; x00; x00].

(** A signed file with width 4, height 2, palette slot 1 holding the RGB
    bytes 255, 0, 0 and the bitmap bytes 10 01 10 01. *)
Definition scenario (buffer : Buffer) : Prop :=
  take 4 (data buffer) = ExpectedSignature
  ∧ at_index (data buffer) 0x424 = Some x04
  ∧ at_index (data buffer) 0x425 = Some x00
  ∧ at_index (data buffer) 0x426 = Some x02
  ∧ at_index (data buffer) 0x427 = Some x00
  ∧ at_index (data buffer) 0x434 = Some xff
  ∧ at_index (data buffer) 0x435 = Some x00
  ∧ at_index (data buffer) 0x436 = Some x00
  ∧ at_index (data buffer) 0x470 = Some x10
  ∧ at_index (data buffer) 0x471 = Some x01
  ∧ at_index (data buffer) 0x472 = Some x10
  ∧ at_index (data buffer) 0x473 = Some x01.

(** ** The conversion in closed form *)

(** The offsets a run loaded, in program order. *)
Definition loads (t : list event) : list Z :=
  omap (λ e, match e with Load off => Some off | Store _ _ => None end) t.

(** [b'] holds, at every offset of [offs], the byte [b] holds there. *)
Definition agree_on (offs : list Z) (b b' : Buffer) : Prop :=
  ∀ off x, off ∈ offs →
    at_index (data b) off = Some x → at_index (data b') off = Some x.

(** A run on [b] that ends is matched by the run on [b'], provided [b']
    agrees with [b] on what the run loaded. *)
Definition transfers {A} (b b' : Buffer) (m m' : run A) : Prop :=
  ∀ t a, m = (t, Done a) → agree_on (loads t) b b' → m' = (t, Done a).

(** The two header fields and the palette, read off the bytes of the file. *)
Definition header_width (buffer : Buffer) : Z :=
  le16 (byte_at buffer 0x424) (byte_at buffer 0x425).

Definition header_height (buffer : Buffer) : Z :=
  le16 (byte_at buffer 0x426) (byte_at buffer 0x427).

Definition decoded_palette (buffer : Buffer) : palette_t :=
  [x00; x00; x00; x00] :: (palette_entry buffer <$> seqZ 1 15).

(** The files the conversion gets through: signed, holding the palette, and
    either without any pixel or with an even width, fewer than 2^30 pixels
    and the whole bitmap. *)
Definition convertible (buffer : Buffer) : Prop :=
  take 4 (data buffer) = ExpectedSignature
  ∧ PALETTE_OFFSET + 63 ≤ Z.of_nat (length (data buffer))
  ∧ (header_width buffer * header_height buffer = 0
     ∨ (Z.even (header_width buffer) = true
        ∧ header_width buffer * header_height buffer < 2 ^ 30
        ∧ IMAGE_OFFSET + header_width buffer * header_height buffer / 2
          ≤ Z.of_nat (length (data buffer)))).

Definition expected_trace (buffer : Buffer) : list event :=
  (Load <$> seqZ 0 4) ++ (seqZ 1 15 ≫= palette_loads)
  ++ [Load 0x424; Load 0x425; Load 0x426; Load 0x427]
  ++ (seqZ 0 (header_width buffer * header_height buffer / 2)
      ≫= pair_events buffer (decoded_palette buffer)).

Definition expected_call (buffer : Buffer) : png_call :=
  {| png_w := header_width buffer;
     png_h := header_height buffer;
     png_comp := 4;
     png_data :=
       seqZ 0 (header_width buffer * header_height buffer)
       ≫= pixel_color buffer (decoded_palette buffer);
     png_stride := header_width buffer * 4 |}.

(** The bytes the conversion never looks at: between the signature and the
    header fields, between the header fields and palette slot 1 (slot 0
    included), and the fourth byte of every palette slot. *)
Definition ignored (off : Z) : Prop :=
  4 ≤ off < 0x424 ∨ 0x428 ≤ off < PALETTE_OFFSET + 4
  ∨ (PALETTE_OFFSET ≤ off < PALETTE_OFFSET + PALETTE_SIZE
     ∧ (off - PALETTE_OFFSET) mod 4 = 3).

(** What one directory entry adds to the calls of the PNG writer. *)
Definition converted (entry : dir_entry) : option png_call :=
  match entry with
  | Regular f =>
      match result (to_png_file (readFromFile f)) with
      | Done (Written c) => Some c
      | _ => None
      end
  | Other => None
  end.

(** The accesses of the turn of the loop for one directory entry. *)
Definition entry_trace (entry : dir_entry) : list event :=
  match entry with
  | Regular f => trace (to_png_file (readFromFile f))
  | Other => []
  end.

(** The turn of the loop for this entry ends. *)
Definition entry_ends (entry : dir_entry) : Prop :=
  match entry with
  | Regular f => ∃ r, result (to_png_file (readFromFile f)) = Done r
  | Other => True
  end.

(** The offsets the conversion of an image of [pixels] pixels loads: the
    signature, the two header fields, the first three bytes of the palette
    slots 1 to 15 and the bitmap. *)
Definition read_region (pixels off : Z) : Prop :=
  0 ≤ off < SIGNATURE_LENGTH
  ∨ WIDTH_OFFSET ≤ off < WIDTH_OFFSET + 4
  ∨ (PALETTE_OFFSET + 4 ≤ off < PALETTE_OFFSET + PALETTE_SIZE
     ∧ (off - PALETTE_OFFSET) mod 4 ≠ 3)
  ∨ IMAGE_OFFSET ≤ off < IMAGE_OFFSET + pixels / 2.

(** The sample image with other bytes wherever the conversion does not
    look, two bytes after the bitmap and a wrong [size]. *)
Definition noisy_buffer : Buffer :=
  {| data :=
       ExpectedSignature ++ replicate (0x424 - 4) x55 ++ [x04; x00; x02; x00]
       ++ replicate 8 x66
       ++ ([x01; x02; x03; x04] ++ [xff; x00; x00; x99] ++ replicate 56 x11)
       ++ [x10; x01; x10; x01] ++ [x77; x88];
     size := 0 |}.



(** More sample files: no pixel (width 0, height 5, nothing after the
    palette bytes the decoder reads), a wrong signature, and the 4 by 2
    image cut after its second bitmap byte. *)
Definition empty_image_buffer : Buffer :=
  buffer_of (take 0x46F (gan_bytes x00 x00 x05 x00 sample_palette_bytes [])).

Definition unsigned_bytes : list byte := [x47; x41; x4e; x11; x00].

Definition truncated_buffer : Buffer :=
  buffer_of (gan_bytes x04 x00 x02 x00 sample_palette_bytes [x10; x01]).

(** * Lemmas *)

(** ** Runs *)

Lemma run_bind_ret {A B} (a : A) (f : A → run B) : mret a ≫= f = f a.
Proof. unfold mret, mbind, run_mret, run_mbind, run_ret, run_bind. by destruct (f a). Qed.

Lemma run_bind_ret_r {A} (m : run A) : m ≫= mret = m.
Proof.
  destruct m as [t [a| |]]; try done.
  unfold mbind, mret, run_mbind, run_mret, run_bind, run_ret.
  by rewrite app_nil_r.
Qed.

Lemma run_bind_assoc {A B C} (m : run A) (f : A → run B) (g : B → run C) :
  (m ≫= f) ≫= g = m ≫= (λ a, f a ≫= g).
Proof.
  unfold mbind, run_mbind, run_bind.
  destruct m as [t [a| |]]; try done.
  destruct (f a) as [t1 [b| |]]; try done.
  destruct (g b) as [t2 r]. by rewrite app_assoc.
Qed.

Lemma run_bind_done {A B} t (a : A) (f : A → run B) :
  (t, Done a) ≫= f = (t ++ trace (f a), result (f a)).
Proof. unfold mbind, run_mbind, run_bind, trace, result. by destruct (f a). Qed.

Lemma run_bind_ext {A B} (m : run A) (f g : A → run B) :
  (∀ a, f a = g a) → m ≫= f = m ≫= g.
Proof.
  intros E. destruct m as [t [a| |]]; try done.
  unfold mbind, run_mbind, run_bind. by rewrite E.
Qed.

Lemma run_bind_done_inv {A B} (m : run A) (f : A → run B) t b :
  m ≫= f = (t, Done b) →
  ∃ t1 a t2, m = (t1, Done a) ∧ f a = (t2, Done b) ∧ t = t1 ++ t2.
Proof.
  destruct m as [t1 [a| |]]; try done.
  rewrite run_bind_done. intros [= <- Hr].
  exists t1, a, (trace (f a)). split_and!; [done| |done].
  unfold trace, result in *. destruct (f a); simpl in *. by subst.
Qed.

(** Inverts a bind that ended: names the value [x] of the first part and
    the equation [Hx] of its run, and leaves the continuation in [H]. *)
Ltac bind_inv H x Hx :=
  apply run_bind_done_inv in H as (? & x & ? & Hx & H & _).

Lemma foldM_app {A S} (f : A → S → run S) l1 l2 s :
  foldM f (l1 ++ l2) s = foldM f l1 s ≫= foldM f l2.
Proof.
  revert s. induction l1 as [|a l1 IH]; intros s; cbn [foldM app].
  - by rewrite run_bind_ret.
  - rewrite run_bind_assoc. by apply run_bind_ext.
Qed.

Lemma foldM_singleton {A S} (f : A → S → run S) a s : foldM f [a] s = f a s.
Proof. cbn [foldM]. apply run_bind_ret_r. Qed.

Lemma foldM_ext {A S} (f g : A → S → run S) l s :
  (∀ a s, a ∈ l → f a s = g a s) → foldM f l s = foldM g l s.
Proof.
  revert s. induction l as [|a l IH]; intros s E; cbn [foldM]; [done|].
  rewrite E by left. apply run_bind_ext. intros s'. apply IH.
  intros a' s'' ?. apply E. by right.
Qed.

Lemma foldM_bind {A B S} (f : B → S → run S) (g : A → list B) l s :
  foldM f (l ≫= g) s = foldM (λ a, foldM f (g a)) l s.
Proof.
  revert s. induction l as [|a l IH]; intros s; [done|].
  change ((a :: l) ≫= g) with (g a ++ (l ≫= g)).
  rewrite foldM_app. cbn [foldM]. by apply run_bind_ext.
Qed.

Lemma foldM_fmap {A B S} (f : B → S → run S) (g : A → B) l s :
  foldM f (g <$> l) s = foldM (λ a, f (g a)) l s.
Proof.
  revert s. induction l as [|a l IH]; intros s; [done|].
  cbn [foldM fmap list_fmap]. by apply run_bind_ext.
Qed.

Lemma foldM_invariant {A S} (P : S → Prop) (f : A → S → run S) l s :
  P s →
  (∀ a s, a ∈ l → P s → ∃ t s', f a s = (t, Done s') ∧ P s') →
  ∃ t s', foldM f l s = (t, Done s') ∧ P s'.
Proof.
  revert s. induction l as [|a l IH]; intros s Hs Hstep.
  { by exists [], s. }
  destruct (Hstep a s) as (t1 & s1 & Hrun & Hs1); [by left|done|].
  destruct (IH s1 Hs1) as (t2 & s2 & Hrest & Hs2).
  { intros a' s' Ha'. apply Hstep. by right. }
  exists (t1 ++ t2), s2. split; [|done].
  cbn [foldM]. rewrite Hrun, run_bind_done, Hrest. done.
Qed.

Lemma foldM_done_trace {A S} (f : A → S → run S) (g : A → list event) l s t s' :
  foldM f l s = (t, Done s') →
  (∀ a s t s', a ∈ l → f a s = (t, Done s') → t = g a) →
  t = l ≫= g.
Proof.
  revert s t. induction l as [|a l IH]; intros s t Hrun Hstep.
  { by injection Hrun as <- _. }
  cbn [foldM] in Hrun.
  apply run_bind_done_inv in Hrun as (t1 & s1 & t2 & Ha & Hrest & ->).
  rewrite bind_cons. f_equal.
  - eapply Hstep; [by left|done].
  - eapply IH; [done|]. intros a' s0 t0 s0' Ha'. apply Hstep. by right.
Qed.

Lemma foldM_done_elem {A S} (P : S → Prop) (f : A → S → run S) l s t s' :
  foldM f l s = (t, Done s') →
  P s →
  (∀ a s t s', a ∈ l → f a s = (t, Done s') → P s → P s') →
  P s' ∧ ∀ a, a ∈ l → ∃ s1 t1 s2, P s1 ∧ f a s1 = (t1, Done s2).
Proof.
  revert s t. induction l as [|a l IH]; intros s t Hrun Hs Hstep.
  { injection Hrun as _ <-. split; [done|]. by intros a ?%elem_of_nil. }
  cbn [foldM] in Hrun.
  apply run_bind_done_inv in Hrun as (t1 & s1 & t2 & Ha & Hrest & ->).
  assert (P s1) as Hs1 by (eapply Hstep; [by left|done..]).
  destruct (IH s1 t2 Hrest Hs1) as [Hs' Hall].
  { intros a' s0 t0 s0' Ha'. apply Hstep. by right. }
  split; [done|]. intros a' [->|Ha']%elem_of_cons; [|by apply Hall].
  by exists s, t1, s1.
Qed.

(** ** The counted loops *)

Lemma steps_nil start bound step :
  0 < step → bound ≤ start → steps start bound step = [].
Proof.
  intros ? ?. unfold steps. rewrite seqZ_nil; [done|].
  assert ((bound - start + step - 1) / step < 1); [|lia].
  apply Z.div_lt_upper_bound; lia.
Qed.

Lemma steps_cons start bound step :
  0 < step → start < bound →
  steps start bound step = start :: steps (start + step) bound step.
Proof.
  intros ? ?. unfold steps.
  replace (bound - start + step - 1) with
    (bound - (start + step) + step - 1 + 1 * step) by lia.
  rewrite Z.div_add by lia.
  assert (0 ≤ (bound - (start + step) + step - 1) / step)
    by (apply Z.div_pos; lia).
  rewrite seqZ_cons by lia. simpl. f_equal; [lia|].
  replace (Z.pred ((bound - (start + step) + step - 1) / step + 1))
    with ((bound - (start + step) + step - 1) / step) by lia.
  rewrite <- (fmap_add_seqZ 1 0), <- list_fmap_compose.
  apply list_fmap_ext. intros _ k _. simpl. lia.
Qed.

Lemma steps_unit bound : steps 0 bound 1 = seqZ 0 bound.
Proof.
  unfold steps. replace (bound - 0 + 1 - 1) with bound by lia.
  rewrite Z.div_1_r. rewrite <- (list_fmap_id (seqZ 0 bound)) at 2.
  apply list_fmap_ext. intros _ k _. simpl. lia.
Qed.

Lemma elem_of_steps x start bound step :
  0 < step →
  x ∈ steps start bound step ↔
  start ≤ x < bound ∧ (x - start) mod step = 0.
Proof.
  intros Hs. unfold steps. rewrite list_elem_of_fmap. split.
  - intros (k & -> & Hk). apply elem_of_seqZ in Hk.
    replace (start + k * step - start) with (k * step) by lia.
    rewrite Z.mod_mul by lia. split; [|done].
    assert (k * step < bound - start); [|lia].
    assert (k + 1 ≤ (bound - start + step - 1) / step) as Hle by lia.
    pose proof (Z.mul_div_le (bound - start + step - 1) step Hs).
    nia.
  - intros [[? ?] Hm]. exists ((x - start) / step). split.
    + pose proof (Z.div_mod (x - start) step). lia.
    + apply elem_of_seqZ. split; [apply Z.div_pos; lia|].
      simpl. apply Z.div_lt_upper_bound; [lia|].
      pose proof (Z.div_mod (x - start) step).
      pose proof (Z.mul_succ_div_gt (bound - start + step - 1) step Hs).
      nia.
Qed.

Lemma steps_odd_snoc m :
  0 ≤ m → steps 0 (2 * m + 1) 2 = steps 0 (2 * m) 2 ++ [2 * m].
Proof.
  intros Hm. unfold steps.
  replace ((2 * m + 1 - 0 + 2 - 1) / 2) with (m + 1).
  2:{ replace (2 * m + 1 - 0 + 2 - 1) with ((m + 1) * 2) by lia.
      by rewrite Z.div_mul by lia. }
  replace ((2 * m - 0 + 2 - 1) / 2) with m.
  2:{ replace (2 * m - 0 + 2 - 1) with (1 + m * 2) by lia.
      by rewrite Z.div_add by lia. }
  rewrite seqZ_app, fmap_app by lia. f_equal.
  change (seqZ (0 + m) 1) with [0 + (0 + m)]. cbn. f_equal. lia.
Qed.

(** With enough fuel and no wrap-around of the counter, the loop is the
    fold of its body over the values the counter takes. *)
Lemma for_u64_steps {S} fuel i bound step (body : Z → S → run S) s :
  0 < step → 0 ≤ i → bound + step ≤ 2 ^ 64 →
  Z.max 0 (bound - i) + step ≤ step * Z.of_nat fuel →
  for_u64 fuel i bound step body s = foldM body (steps i bound step) s.
Proof.
  intros Hs. revert i s.
  induction fuel as [|fuel IH]; intros i s Hi Hb Hf.
  { rewrite Z.mul_0_r in Hf. lia. }
  rewrite Nat2Z.inj_succ, Z.mul_succ_r in Hf.
  cbn [for_u64]. case_decide as Hlt.
  - rewrite steps_cons by lia. cbn [foldM]. apply run_bind_ext. intros s'.
    unfold to_u64. rewrite Z.mod_small by lia.
    assert (step ≤ step * Z.of_nat fuel).
    { destruct fuel as [|fuel']; [rewrite Z.mul_0_r in Hf; lia|nia]. }
    apply IH; lia.
  - by rewrite steps_nil by lia.
Qed.

Lemma bind_singleton_fmap {A B} (g : A → B) (l : list A) :
  l ≫= (λ x, [g x]) = g <$> l.
Proof. induction l as [|a l IH]; [done|]. cbn. by f_equal. Qed.

Lemma elem_of_pair_coords width height y x :
  (y, x) ∈ pair_coords width height
  ↔ 0 ≤ y < height ∧ 0 ≤ x < width ∧ x mod 2 = 0.
Proof.
  unfold pair_coords. rewrite list_elem_of_bind. split.
  - intros (y' & (x' & [= <- <-]%list_elem_of_singleton & Hx)%list_elem_of_bind
            & Hy).
    apply elem_of_seqZ in Hy. apply elem_of_steps in Hx; [|lia].
    rewrite Z.sub_0_r in Hx. lia.
  - intros (Hy & Hx & Hm). exists y. split; [|apply elem_of_seqZ; lia].
    apply list_elem_of_bind. exists x. split; [by apply list_elem_of_singleton|].
    apply elem_of_steps; [lia|]. by rewrite Z.sub_0_r.
Qed.

(** ** Machine integers, bytes and nibbles *)

Lemma byteZ_range b : 0 ≤ byteZ b < 256.
Proof.
  unfold byteZ. pose proof (Byte.to_N_bounded b). lia.
Qed.

Lemma low_nibble b : to_u8 (Z.land (byteZ b) 0x0F) = byteZ b mod 16.
Proof.
  pose proof (byteZ_range b). unfold to_u8.
  change 0x0F with (Z.ones 4). rewrite Z.land_ones by lia.
  apply Z.mod_small. pose proof (Z.mod_pos_bound (byteZ b) 16). lia.
Qed.

Lemma high_nibble b : to_u8 (Z.shiftr (byteZ b) 4) = byteZ b / 16.
Proof.
  pose proof (byteZ_range b). unfold to_u8.
  rewrite Z.shiftr_div_pow2 by lia. change (2 ^ 4) with 16.
  apply Z.mod_small. split; [apply Z.div_pos; lia|].
  apply Z.div_lt_upper_bound; lia.
Qed.

Lemma nibble_range b : 0 ≤ byteZ b mod 16 < 16 ∧ 0 ≤ byteZ b / 16 < 16.
Proof.
  pose proof (byteZ_range b). split; [apply Z.mod_pos_bound; lia|].
  split; [apply Z.div_pos; lia|apply Z.div_lt_upper_bound; lia].
Qed.

Lemma to_u32_to_int z : 0 ≤ z < 2 ^ 32 → to_u32 (to_int z) = z.
Proof.
  intros Hz. unfold to_u32, to_int.
  rewrite Zminus_mod_idemp_l.
  replace (z + 2 ^ 31 - 2 ^ 31) with z by lia. by apply Z.mod_small.
Qed.

Lemma to_int_small z : - 2 ^ 31 ≤ z < 2 ^ 31 → to_int z = z.
Proof.
  intros Hz. unfold to_int. rewrite Z.mod_small by lia. lia.
Qed.

Lemma pixel_count_done width height :
  0 ≤ width * height ≤ INT_MAX →
  pixel_count width height = mret (width * height).
Proof.
  intros Hwh. unfold pixel_count, INT_MIN, INT_MAX in *.
  rewrite decide_True by lia. unfold to_u32. by rewrite Z.mod_small by lia.
Qed.

Lemma pixel_count_overflow width height :
  INT_MAX < width * height → pixel_count width height = fault.
Proof.
  intros Hwh. unfold pixel_count. by rewrite decide_False by lia.
Qed.

Lemma pixel_count_done_inv width height t count :
  0 ≤ width → 0 ≤ height →
  pixel_count width height = (t, Done count) →
  t = [] ∧ count = width * height ∧ width * height ≤ INT_MAX.
Proof.
  intros Hw Hh. unfold pixel_count. case_decide as Hr; [|done].
  intros [= <- <-]. unfold to_u32, INT_MIN, INT_MAX in *.
  rewrite Z.mod_small by nia. split_and!; [done|done|lia].
Qed.

Lemma lor_shiftl_le16 lo hi :
  Z.lor (byteZ lo) (Z.shiftl (byteZ hi) 8) = le16 lo hi.
Proof.
  pose proof (byteZ_range lo) as Hlo. unfold le16.
  rewrite <- Z.lxor_lor, <- Z.add_nocarry_lxor.
  - rewrite Z.shiftl_mul_pow2 by lia. change (2 ^ 8) with 256. lia.
  - apply Z.bits_inj'. intros n Hn. rewrite Z.land_spec, Z.bits_0.
    destruct (Z.lt_ge_cases n 8).
    + rewrite Z.shiftl_spec_low by lia. apply andb_false_r.
    + rewrite <- (Z.mod_small (byteZ lo) (2 ^ 8)) by (change (2 ^ 8) with 256; lia).
      by rewrite Z.mod_pow2_bits_high by lia.
  - apply Z.bits_inj'. intros n Hn. rewrite Z.land_spec, Z.bits_0.
    destruct (Z.lt_ge_cases n 8).
    + rewrite Z.shiftl_spec_low by lia. apply andb_false_r.
    + rewrite <- (Z.mod_small (byteZ lo) (2 ^ 8)) by (change (2 ^ 8) with 256; lia).
      by rewrite Z.mod_pow2_bits_high by lia.
Qed.

Lemma le16_range lo hi : 0 ≤ le16 lo hi < 2 ^ 16.
Proof.
  pose proof (byteZ_range lo). pose proof (byteZ_range hi).
  unfold le16. lia.
Qed.

(** ** Array accesses *)

Lemma at_index_Some {A} (l : list A) i x :
  at_index l i = Some x ↔ 0 ≤ i ∧ l !! Z.to_nat i = Some x.
Proof. unfold at_index. case_decide; [tauto|]. split; [done|tauto]. Qed.

Lemma at_index_lt {A} (l : list A) i :
  0 ≤ i < Z.of_nat (length l) → ∃ x, at_index l i = Some x.
Proof.
  intros Hi. destruct (lookup_lt_is_Some_2 l (Z.to_nat i)) as [x Hx]; [lia|].
  exists x. apply at_index_Some. split; [lia|done].
Qed.

Lemma at_index_length {A} (l : list A) i x :
  at_index l i = Some x → 0 ≤ i < Z.of_nat (length l).
Proof.
  intros [? Hx]%at_index_Some. apply lookup_lt_Some in Hx. lia.
Qed.

Lemma load_Some buffer off b :
  at_index (data buffer) off = Some b → load buffer off = ([Load off], Done b).
Proof. intros E. unfold load. by rewrite E. Qed.

Lemma load_None buffer off :
  at_index (data buffer) off = None → load buffer off = ([Load off], Fault).
Proof. intros E. unfold load. by rewrite E. Qed.

Lemma load_done_inv buffer off t b :
  load buffer off = (t, Done b) → at_index (data buffer) off = Some b.
Proof.
  unfold load. destruct (at_index (data buffer) off); [|done].
  by intros [= _ ->].
Qed.

Lemma byte_at_Some buffer off :
  0 ≤ off < Z.of_nat (length (data buffer)) →
  at_index (data buffer) off = Some (byte_at buffer off).
Proof.
  intros Hoff. destruct (at_index_lt (data buffer) off Hoff) as [b Hb].
  unfold byte_at. by rewrite Hb.
Qed.

Lemma palette_row_Some palette index c :
  at_index palette index = Some c → palette_row palette index = mret c.
Proof. intros E. unfold palette_row. by rewrite E. Qed.

Lemma wf_palette_row palette index c :
  wf_palette palette → at_index palette index = Some c → length c = 4%nat.
Proof.
  intros [_ Hrows] [_ Hc]%at_index_Some.
  by eapply (Forall_lookup_1 _ _ _ _ Hrows Hc).
Qed.

Lemma memcpy_done pixeldata off c :
  0 ≤ off → length c = 4%nat → off + 4 ≤ Z.of_nat (length pixeldata) →
  memcpy pixeldata off c
  = ([Store off c],
     Done (take (Z.to_nat off) pixeldata ++ c
           ++ drop (Z.to_nat off + 4) pixeldata)).
Proof.
  intros Hoff Hc Hlen. unfold memcpy, PIXEL_STRIDE.
  rewrite take_ge by (rewrite Hc; lia).
  rewrite decide_True by done. do 2 f_equal.
  rewrite <- (take_drop (Z.to_nat off) pixeldata) at 1.
  rewrite <- (take_drop 4 (drop (Z.to_nat off) pixeldata)) at 1.
  rewrite drop_drop.
  assert (length (take (Z.to_nat off) pixeldata) = Z.to_nat off) as Hpre
    by (rewrite length_take; lia).
  rewrite <- Hpre at 1.
  rewrite <- (Nat.add_0_r (length (take (Z.to_nat off) pixeldata))).
  rewrite list_inserts_app_r. f_equal.
  apply list_inserts_0_r. rewrite length_take, length_drop. lia.
Qed.

Lemma memcpy_fault pixeldata off c :
  Z.of_nat (length pixeldata) < off + 4 →
  memcpy pixeldata off c = ([Store off (take 4 c)], Fault).
Proof.
  intros Hlen. unfold memcpy, PIXEL_STRIDE. by rewrite decide_False by lia.
Qed.

Lemma memcpy_done_inv pixeldata off c t pixeldata' :
  memcpy pixeldata off c = (t, Done pixeldata') →
  off + 4 ≤ Z.of_nat (length pixeldata)
  ∧ length pixeldata' = length pixeldata.
Proof.
  unfold memcpy, PIXEL_STRIDE. case_decide; [|done].
  intros [= _ <-]. by rewrite length_inserts.
Qed.

(** ** validate_file *)

Lemma validate_loop_step fuel buffer i b e :
  0 ≤ i < SIGNATURE_LENGTH →
  at_index (data buffer) i = Some b →
  at_index ExpectedSignature i = Some e →
  validate_loop (S fuel) buffer i
  = if decide (b ≠ e) then ([Load i], Done false)
    else ([Load i], Done b) ≫= λ _, validate_loop fuel buffer (i + 1).
Proof.
  intros Hi Hb He. cbn [validate_loop]. rewrite decide_True by lia.
  unfold SIGNATURE_OFFSET, SIGNATURE_LENGTH, to_u64 in *.
  rewrite Z.add_0_l, !Z.mod_small by lia.
  rewrite (load_Some _ _ _ Hb), He, run_bind_done.
  case_decide; [done|]. unfold trace, result.
  by destruct (validate_loop fuel buffer (i + 1)).
Qed.

(** On four bytes or more validate_file returns, and returns the
    comparison of the first four with the signature. *)
Lemma validate_file_four b0 b1 b2 b3 rest sz :
  ∃ t, validate_file (mkBuffer (b0 :: b1 :: b2 :: b3 :: rest) sz)
       = (t, Done (bool_decide ([b0; b1; b2; b3] = ExpectedSignature)))
       ∧ t `prefix_of` [Load 0; Load 1; Load 2; Load 3].
Proof.
  unfold validate_file. change (Z.to_nat SIGNATURE_LENGTH) with 4%nat.
  rewrite (validate_loop_step _ _ 0 b0 x47) by done.
  case_decide as H0.
  { eexists. split; [rewrite bool_decide_eq_false_2;
      [done|unfold ExpectedSignature; congruence]|by exists [Load 1; Load 2; Load 3]]. }
  rewrite (validate_loop_step _ _ (0 + 1) b1 x41) by done.
  case_decide as H1.
  { eexists. split; [rewrite bool_decide_eq_false_2;
      [done|unfold ExpectedSignature; congruence]|by exists [Load 2; Load 3]]. }
  rewrite (validate_loop_step _ _ (0 + 1 + 1) b2 x4e) by done.
  case_decide as H2.
  { eexists. split; [rewrite bool_decide_eq_false_2;
      [done|unfold ExpectedSignature; congruence]|by exists [Load 3]]. }
  rewrite (validate_loop_step _ _ (0 + 1 + 1 + 1) b3 x10) by done.
  case_decide as H3.
  { eexists. split; [rewrite bool_decide_eq_false_2;
      [done|unfold ExpectedSignature; congruence]|by exists []]. }
  subst. eexists. split; [done|by exists []].
Qed.

Lemma validate_file_true buffer :
  take 4 (data buffer) = ExpectedSignature →
  ∃ t, validate_file buffer = (t, Done true).
Proof.
  destruct buffer as [[|b0 [|b1 [|b2 [|b3 rest]]]] sz]; try done.
  cbn [data take]. intros [= -> -> -> ->].
  destruct (validate_file_four x47 x41 x4e x10 rest sz) as (t & Hrun & _).
  by exists t.
Qed.

(** ** The header fields *)

Lemma read_u16_done buffer off lo hi :
  0 ≤ off < 2 ^ 16 →
  at_index (data buffer) off = Some lo →
  at_index (data buffer) (off + 1) = Some hi →
  read_u16 buffer off = ([Load off; Load (off + 1)], Done (le16 lo hi)).
Proof.
  intros Hoff Hlo Hhi. unfold read_u16.
  rewrite to_int_small by lia.
  rewrite (load_Some _ _ _ Hlo), run_bind_done.
  rewrite (load_Some _ _ _ Hhi), run_bind_done.
  pose proof (byteZ_range hi) as Hr. pose proof (le16_range lo hi) as Hle.
  rewrite (to_int_small (Z.shiftl (byteZ hi) 8))
    by (rewrite Z.shiftl_mul_pow2 by lia; change (2 ^ 8) with 256; lia).
  rewrite lor_shiftl_le16, to_int_small by lia. unfold to_u16.
  rewrite Z.mod_small by done. done.
Qed.

Lemma read_u16_done_inv buffer off t v :
  read_u16 buffer off = (t, Done v) → 0 ≤ v < 2 ^ 16.
Proof.
  unfold read_u16. intros Hrun.
  bind_inv Hrun lo Hlo. bind_inv Hrun hi Hhi.
  injection Hrun as _ <-. unfold to_u16. apply Z.mod_pos_bound. lia.
Qed.

(** ** The palette *)

Lemma alter_as_insert {A} (f : A → A) i (l : list A) x :
  l !! i = Some x → alter f i l = <[i := f x]> l.
Proof.
  intros Hx. apply list_eq. intros j. destruct (decide (i = j)) as [<-|Hne].
  - rewrite list_lookup_alter_eq, Hx.
    rewrite list_lookup_insert_eq by (by eapply lookup_lt_Some). done.
  - by rewrite list_lookup_alter_ne, list_lookup_insert_ne.
Qed.

Lemma palette_set_row palette i r g b :
  wf_palette palette → 0 ≤ i < 16 →
  palette_set (palette_set (palette_set (palette_set palette i 0 r) i 1 g)
                 i 2 b) i 3 xff
  = <[Z.to_nat i := [r; g; b; xff]]> palette.
Proof.
  intros [Hlen Hrows] Hi.
  destruct (lookup_lt_is_Some_2 palette (Z.to_nat i)) as [row Hrow]; [lia|].
  pose proof (Forall_lookup_1 _ _ _ _ Hrows Hrow) as Hl.
  destruct row as [|a0 [|a1 [|a2 [|a3 [|]]]]]; try discriminate.
  unfold palette_set.
  rewrite (alter_as_insert _ _ palette _ Hrow).
  assert (∀ x (l : palette_t),
            <[Z.to_nat i := x]> palette !! Z.to_nat i = Some x) as Hin
    by (intros; apply list_lookup_insert_eq; lia).
  rewrite (alter_as_insert _ _ _ _ (Hin _ palette)), list_insert_insert_eq.
  rewrite (alter_as_insert _ _ _ _ (Hin _ palette)), list_insert_insert_eq.
  rewrite (alter_as_insert _ _ _ _ (Hin _ palette)), list_insert_insert_eq.
  done.
Qed.

Lemma wf_palette_insert palette i c :
  wf_palette palette → length c = 4%nat → wf_palette (<[i := c]> palette).
Proof.
  intros [Hlen Hrows] Hc. split; [by rewrite length_insert|].
  by apply Forall_insert.
Qed.

Lemma palette_body_done buffer i palette :
  wf_palette palette → 1 ≤ i < 16 →
  PALETTE_OFFSET + 63 ≤ Z.of_nat (length (data buffer)) →
  palette_body buffer i palette
  = (palette_loads i,
     Done (<[Z.to_nat i := palette_entry buffer i]> palette)).
Proof.
  intros Hpal Hi Hbuf. unfold palette_body, PALETTE_OFFSET, PIXEL_STRIDE in *.
  unfold to_u64. rewrite (Z.mod_small (i * 4)) by lia.
  rewrite (Z.mod_small (1072 + i * 4)) by lia.
  rewrite !Z.mod_small by lia. rewrite Z.add_0_r.
  rewrite (load_Some _ _ _ (byte_at_Some buffer (1072 + i * 4) ltac:(lia))),
    run_bind_done.
  rewrite (load_Some _ _ _ (byte_at_Some buffer (1072 + i * 4 + 1) ltac:(lia))),
    run_bind_done.
  rewrite (load_Some _ _ _ (byte_at_Some buffer (1072 + i * 4 + 2) ltac:(lia))),
    run_bind_done.
  rewrite palette_set_row by (done || lia). done.
Qed.

Lemma palette_fold_done buffer l :
  PALETTE_OFFSET + 63 ≤ Z.of_nat (length (data buffer)) →
  Forall (λ i, 1 ≤ i < 16) l →
  ∀ palette, wf_palette palette →
    foldM (palette_body buffer) l palette
    = (l ≫= palette_loads,
       Done (foldl (λ p i, <[Z.to_nat i := palette_entry buffer i]> p)
               palette l)).
Proof.
  intros Hbuf. induction 1 as [|i l Hi Hl IH]; intros palette Hpal; [done|].
  cbn [foldM foldl]. rewrite palette_body_done by done.
  rewrite run_bind_done, IH by (by apply wf_palette_insert). done.
Qed.

(** The palette loop leaves row 0 as initialised and sets rows 1 to 15. *)
Lemma read_palette_done buffer :
  PALETTE_OFFSET + 63 ≤ Z.of_nat (length (data buffer)) →
  read_palette buffer
  = (seqZ 1 15 ≫= palette_loads,
     Done ([x00; x00; x00; x00] :: (palette_entry buffer <$> seqZ 1 15))).
Proof.
  intros Hbuf. unfold read_palette.
  rewrite for_u64_steps by (by vm_compute).
  change (steps 1 NUM_PALETTE_COLORS 1) with (seqZ 1 15).
  rewrite palette_fold_done; [done|done| |].
  - apply Forall_seqZ. lia.
  - split; [done|]. repeat constructor.
Qed.

Lemma wf_read_palette buffer :
  wf_palette ([x00; x00; x00; x00] :: (palette_entry buffer <$> seqZ 1 15)).
Proof. split; [done|]. repeat constructor. Qed.

(** ** One pixel pair *)

(** For 16-bit coordinates nothing wraps in the loop body, [>> 1] is a
    division by 2 and the two masks are the remainder and the quotient by
    16. *)
Lemma pair_body_pair_at buffer palette width y x pixeldata :
  0 ≤ width < 2 ^ 16 → 0 ≤ y < 2 ^ 16 → 0 ≤ x < 2 ^ 16 →
  pair_body buffer palette width y x pixeldata
  = pair_at buffer palette (y * width + x) pixeldata.
Proof.
  intros Hw Hy Hx. unfold pair_body, pair_at.
  assert (0 ≤ y * width < 2 ^ 32) by nia.
  assert (0 ≤ (y * width + x) / 2 ≤ y * width + x).
  { split; [apply Z.div_pos; lia|]. apply Z.div_le_upper_bound; lia. }
  unfold to_u64, IMAGE_OFFSET, PIXEL_STRIDE.
  rewrite (Z.mod_small (y * width)) by lia.
  rewrite (Z.mod_small (y * width + x)) by lia.
  rewrite (Z.mod_small (y * width + x + 1)) by lia.
  rewrite Z.shiftr_div_pow2 by lia. change (2 ^ 1) with 2.
  rewrite !Z.mod_small by lia.
  apply run_bind_ext. intros b. by rewrite low_nibble, high_nibble.
Qed.

Lemma pair_at_done_inv buffer palette i1 pixels t pixels' :
  pair_at buffer palette i1 pixels = (t, Done pixels') →
  (i1 + 1) * 4 + 4 ≤ Z.of_nat (length pixels)
  ∧ length pixels' = length pixels.
Proof.
  unfold pair_at. intros Hrun.
  bind_inv Hrun b Hload. bind_inv Hrun c1 Hrow1. bind_inv Hrun pix1 Hm1.
  bind_inv Hrun c2 Hrow2.
  apply memcpy_done_inv in Hm1 as [_ Hl1].
  apply memcpy_done_inv in Hrun as [Hb2 Hl2].
  split; lia.
Qed.

Lemma pixel_at_overwritten (pixels : list byte) i1 (c1 c2 : list byte) :
  0 ≤ i1 → length c1 = 4%nat → length c2 = 4%nat →
  4 * i1 + 8 ≤ Z.of_nat (length pixels) →
  pixel_at (take (Z.to_nat (4 * i1)) pixels ++ (c1 ++ c2)
            ++ drop (Z.to_nat (4 * i1) + 8) pixels) (i1 + 1) = c2.
Proof.
  intros Hi Hl1 Hl2 Hlen. unfold pixel_at, PIXEL_STRIDE.
  replace (Z.to_nat ((i1 + 1) * 4)) with (Z.to_nat (4 * i1) + 4)%nat by lia.
  rewrite drop_app_add' by (rewrite length_take; lia).
  rewrite <- app_assoc, drop_app_length' by done.
  by rewrite take_app_length'.
Qed.

Section pair.
Context (buffer : Buffer) (palette : list (list byte)).
Hypothesis Hpal : wf_palette palette.

(** The byte of a pair and the two palette rows its nibbles select. *)
Lemma pair_colors i1 :
  0 ≤ i1 → IMAGE_OFFSET + i1 / 2 < Z.of_nat (length (data buffer)) →
  ∃ b c1 c2,
    at_index (data buffer) (IMAGE_OFFSET + i1 / 2) = Some b
    ∧ at_index palette (byteZ b mod 16) = Some c1
    ∧ at_index palette (byteZ b / 16) = Some c2
    ∧ length c1 = 4%nat ∧ length c2 = 4%nat.
Proof.
  intros Hi Hbuf. assert (0 ≤ i1 / 2) by (apply Z.div_pos; lia).
  destruct (at_index_lt (data buffer) (IMAGE_OFFSET + i1 / 2)) as [b Hb];
    [unfold IMAGE_OFFSET in *; lia|].
  pose proof (nibble_range b) as [Hlo Hhi].
  destruct (at_index_lt palette (byteZ b mod 16)) as [c1 Hc1];
    [destruct Hpal as [-> _]; lia|].
  destruct (at_index_lt palette (byteZ b / 16)) as [c2 Hc2];
    [destruct Hpal as [-> _]; lia|].
  exists b, c1, c2. split_and!; try done; by eapply wf_palette_row.
Qed.

Lemma pair_at_done i1 pixels b c1 c2 :
  0 ≤ i1 →
  at_index (data buffer) (IMAGE_OFFSET + i1 / 2) = Some b →
  at_index palette (byteZ b mod 16) = Some c1 →
  at_index palette (byteZ b / 16) = Some c2 →
  4 * i1 + 8 ≤ Z.of_nat (length pixels) →
  pair_at buffer palette i1 pixels
  = ([Load (IMAGE_OFFSET + i1 / 2); Store (i1 * 4) c1;
      Store ((i1 + 1) * 4) c2],
     Done (take (Z.to_nat (4 * i1)) pixels ++ (c1 ++ c2)
           ++ drop (Z.to_nat (4 * i1) + 8) pixels)).
Proof.
  intros Hi Hb Hc1 Hc2 Hlen. unfold pair_at.
  pose proof (wf_palette_row _ _ _ Hpal Hc1) as Hl1.
  pose proof (wf_palette_row _ _ _ Hpal Hc2) as Hl2.
  rewrite (load_Some _ _ _ Hb), run_bind_done.
  rewrite (palette_row_Some _ _ _ Hc1), run_bind_ret.
  rewrite memcpy_done by lia. rewrite run_bind_done.
  rewrite (palette_row_Some _ _ _ Hc2), run_bind_ret.
  rewrite memcpy_done; [|lia|done|rewrite !length_app, length_take, length_drop; lia].
  unfold trace, result; cbn [fst snd app]. do 2 f_equal.
  replace (Z.to_nat ((i1 + 1) * 4)) with (Z.to_nat (i1 * 4) + 4)%nat by lia.
  replace (Z.to_nat (4 * i1)) with (Z.to_nat (i1 * 4)) by lia.
  assert (length (take (Z.to_nat (i1 * 4)) pixels) = Z.to_nat (i1 * 4)) as Hpre
    by (rewrite length_take; lia).
  rewrite take_app_add' by done. rewrite take_app_length' by done.
  rewrite <- Nat.add_assoc, drop_app_add' by done.
  rewrite drop_app_add' by done. rewrite drop_drop, <- !app_assoc.
  by replace (Z.to_nat (i1 * 4) + 4 + 4)%nat with (Z.to_nat (i1 * 4) + 8)%nat
    by lia.
Qed.

Lemma pair_at_done_len i1 pixels :
  0 ≤ i1 →
  IMAGE_OFFSET + i1 / 2 < Z.of_nat (length (data buffer)) →
  4 * i1 + 8 ≤ Z.of_nat (length pixels) →
  ∃ t pixels',
    pair_at buffer palette i1 pixels = (t, Done pixels')
    ∧ length pixels' = length pixels.
Proof.
  intros Hi Hbuf Hlen.
  destruct (pair_colors i1 Hi Hbuf) as (b & c1 & c2 & Hb & Hc1 & Hc2 & ? & ?).
  eexists _, _. split; [by eapply pair_at_done|].
  rewrite !length_app, length_take, length_drop. lia.
Qed.

Lemma pair_at_overrun i1 pixels b c1 c2 :
  0 ≤ i1 →
  at_index (data buffer) (IMAGE_OFFSET + i1 / 2) = Some b →
  at_index palette (byteZ b mod 16) = Some c1 →
  at_index palette (byteZ b / 16) = Some c2 →
  4 * i1 + 4 ≤ Z.of_nat (length pixels) < 4 * i1 + 8 →
  pair_at buffer palette i1 pixels
  = ([Load (IMAGE_OFFSET + i1 / 2); Store (i1 * 4) c1;
      Store ((i1 + 1) * 4) c2], Fault).
Proof.
  intros Hi Hb Hc1 Hc2 Hlen. unfold pair_at.
  pose proof (wf_palette_row _ _ _ Hpal Hc1) as Hl1.
  pose proof (wf_palette_row _ _ _ Hpal Hc2) as Hl2.
  rewrite (load_Some _ _ _ Hb), run_bind_done.
  rewrite (palette_row_Some _ _ _ Hc1), run_bind_ret.
  rewrite memcpy_done by lia. rewrite run_bind_done.
  rewrite (palette_row_Some _ _ _ Hc2), run_bind_ret.
  rewrite memcpy_fault
    by (rewrite !length_app, length_take, length_drop; lia).
  rewrite take_ge by lia. done.
Qed.

Lemma pixel_color_row p :
  at_index palette (pixel_index buffer p) = Some (pixel_color buffer palette p)
  ∧ length (pixel_color buffer palette p) = 4%nat.
Proof.
  unfold pixel_color.
  assert (0 ≤ pixel_index buffer p < 16) as Hi.
  { unfold pixel_index. pose proof (nibble_range (bitmap_byte buffer p)).
    cbv zeta. destruct (Z.even p); lia. }
  destruct (at_index_lt palette (pixel_index buffer p)) as [c Hc].
  { destruct Hpal as [-> _]. lia. }
  rewrite Hc. split; [done|]. by eapply wf_palette_row.
Qed.

Lemma pixel_color_Some p :
  0 ≤ p →
  IMAGE_OFFSET + p / 2 < Z.of_nat (length (data buffer)) →
  ∃ b c,
    at_index (data buffer) (IMAGE_OFFSET + p / 2) = Some b
    ∧ at_index palette (if Z.even p then byteZ b mod 16 else byteZ b / 16)
      = Some c
    ∧ pixel_color buffer palette p = c.
Proof.
  intros Hp Hbuf.
  destruct (at_index_lt (data buffer) (IMAGE_OFFSET + p / 2)) as [b Hb].
  { assert (0 ≤ p / 2) by (apply Z.div_pos; lia). unfold IMAGE_OFFSET in *. lia. }
  destruct (pixel_color_row p) as [Hc _].
  exists b, (pixel_color buffer palette p). split_and!; [done| |done].
  unfold pixel_index, bitmap_byte in Hc. by rewrite Hb in Hc.
Qed.

Lemma pair_at_even k pixels :
  0 ≤ k →
  IMAGE_OFFSET + k < Z.of_nat (length (data buffer)) →
  8 * k + 8 ≤ Z.of_nat (length pixels) →
  pair_at buffer palette (2 * k) pixels
  = (pair_events buffer palette k,
     Done (take (Z.to_nat (8 * k)) pixels
           ++ (pixel_color buffer palette (2 * k)
               ++ pixel_color buffer palette (2 * k + 1))
           ++ drop (Z.to_nat (8 * k) + 8) pixels)).
Proof.
  intros Hk Hbuf Hlen.
  assert (2 * k / 2 = k) as Hdiv0 by (rewrite Z.mul_comm; apply Z.div_mul; lia).
  assert ((2 * k + 1) / 2 = k) as Hdiv1.
  { rewrite Z.add_comm, Z.mul_comm, Z.div_add by lia. done. }
  destruct (at_index_lt (data buffer) (IMAGE_OFFSET + k)) as [b Hb].
  { unfold IMAGE_OFFSET in *. lia. }
  destruct (pixel_color_row (2 * k)) as [Hc1 _].
  destruct (pixel_color_row (2 * k + 1)) as [Hc2 _].
  unfold pixel_index, bitmap_byte in Hc1, Hc2. cbv zeta in Hc1, Hc2.
  rewrite Hdiv0, Hb in Hc1. rewrite Hdiv1, Hb in Hc2.
  rewrite Z.even_mul in Hc1. rewrite Z.even_add, Z.even_mul in Hc2.
  cbn [Z.even orb Bool.eqb default from_option id] in Hc1, Hc2.
  rewrite (pair_at_done (2 * k) pixels b
             (pixel_color buffer palette (2 * k))
             (pixel_color buffer palette (2 * k + 1)));
    rewrite ?Hdiv0; try done; try lia.
  unfold pair_events. by replace (4 * (2 * k)) with (8 * k) by lia.
Qed.

Lemma pair_at_done_trace i1 pixels t pixels' :
  pair_at buffer palette i1 pixels = (t, Done pixels') → 0 ≤ i1 →
  t = [Load (IMAGE_OFFSET + i1 / 2);
       Store (i1 * 4)
         (default [] (at_index palette
            (byteZ (byte_at buffer (IMAGE_OFFSET + i1 / 2)) mod 16)));
       Store ((i1 + 1) * 4)
         (default [] (at_index palette
            (byteZ (byte_at buffer (IMAGE_OFFSET + i1 / 2)) / 16)))].
Proof.
  intros Hrun Hi.
  pose proof (pair_at_done_inv buffer palette _ _ _ _ Hrun) as [Hlen _].
  assert (IMAGE_OFFSET + i1 / 2 < Z.of_nat (length (data buffer))) as Hld.
  { pose proof Hrun as Hrun'. unfold pair_at in Hrun'.
    bind_inv Hrun' b Hb. apply load_done_inv, at_index_length in Hb. lia. }
  destruct (pair_colors i1) as (b & c1 & c2 & Hb & Hc1 & Hc2 & _);
    [done|done|].
  rewrite (pair_at_done i1 pixels b c1 c2) in Hrun by (done || lia).
  injection Hrun as <- _. unfold byte_at. rewrite Hb.
  change (default x00 (Some b)) with b. by rewrite Hc1, Hc2.
Qed.

End pair.

(** ** The nested loops compute the algorithm of the document *)

Lemma unpack_row_spec buffer palette width y pixeldata :
  0 ≤ width < 2 ^ 16 → 0 ≤ y < 2 ^ 16 →
  unpack_row buffer palette width y pixeldata
  = foldM (λ x, pair_at buffer palette (y * width + x)) (steps 0 width 2)
      pixeldata.
Proof.
  intros Hw Hy. unfold unpack_row.
  rewrite for_u64_steps by lia.
  apply foldM_ext. intros x s Hx. apply elem_of_steps in Hx; [|lia].
  apply pair_body_pair_at; lia.
Qed.

(** The two nested loops are the fold of [pair_at] over the pair
    coordinates: the 64-bit counters never wrap and the fuel suffices. *)
Lemma unpack_pixels_spec buffer palette width height pixeldata :
  0 ≤ width < 2 ^ 16 → 0 ≤ height < 2 ^ 16 →
  unpack_pixels buffer palette width height pixeldata
  = unpack_spec buffer palette width height pixeldata.
Proof.
  intros Hw Hh. unfold unpack_pixels, unpack_spec, pair_coords.
  rewrite for_u64_steps by lia. rewrite steps_unit, foldM_bind.
  apply foldM_ext. intros y s Hy. apply elem_of_seqZ in Hy.
  rewrite unpack_row_spec by lia. rewrite foldM_bind.
  apply foldM_ext. intros x s' _. by rewrite foldM_singleton.
Qed.

Lemma unpack_spec_indices buffer palette width height pixels :
  unpack_spec buffer palette width height pixels
  = foldM (pair_at buffer palette)
      ((λ '(y, x), y * width + x) <$> pair_coords width height) pixels.
Proof.
  unfold unpack_spec. rewrite foldM_fmap.
  apply foldM_ext. by intros [y x] s _.
Qed.

(** ** Even width: the pairs tile the image *)

(** [n] consecutive pairs from pixel [2 * a] on overwrite the bytes
    [8 * a, 8 * (a + n)) of the pixel buffer with the colors of their
    pixels and leave the rest as it was. *)
Lemma scan_done buffer palette (n : nat) :
  wf_palette palette →
  ∀ a pre mid post,
    0 ≤ a →
    IMAGE_OFFSET + a + Z.of_nat n ≤ Z.of_nat (length (data buffer)) →
    length pre = Z.to_nat (8 * a) → length mid = (8 * n)%nat →
    foldM (pair_at buffer palette) ((λ k, 2 * k) <$> seqZ a (Z.of_nat n))
      (pre ++ mid ++ post)
    = (seqZ a (Z.of_nat n) ≫= pair_events buffer palette,
       Done (pre ++ (seqZ (2 * a) (2 * Z.of_nat n) ≫= pixel_color buffer palette)
             ++ post)).
Proof.
  intros Hpal. induction n as [|n IH]; intros a pre mid post Ha Hbuf Hpre Hmid.
  { destruct mid; [done|discriminate]. }
  rewrite (seqZ_cons a) by lia. rewrite (seqZ_cons (2 * a)) by lia.
  rewrite (seqZ_cons (Z.succ (2 * a))) by lia.
  replace (Z.pred (Z.of_nat (S n))) with (Z.of_nat n) by lia.
  replace (Z.pred (Z.pred (2 * Z.of_nat (S n)))) with (2 * Z.of_nat n) by lia.
  replace (Z.succ (Z.succ (2 * a))) with (2 * Z.succ a) by lia.
  replace (Z.succ (2 * a)) with (2 * a + 1) by lia.
  cbn [fmap list_fmap foldM mbind list_bind].
  destruct (pixel_color_row buffer palette Hpal (2 * a)) as [_ Hl1].
  destruct (pixel_color_row buffer palette Hpal (2 * a + 1)) as [_ Hl2].
  rewrite pair_at_even;
    [|done|done|lia|rewrite !length_app; lia].
  rewrite take_app_length' by done.
  rewrite drop_app_add' by done.
  rewrite drop_app_le by lia.
  rewrite run_bind_done.
  rewrite (app_assoc pre), (IH (Z.succ a) _ (drop 8 mid) post);
    [|lia|lia|rewrite !length_app; lia|rewrite length_drop; lia].
  unfold trace, result; cbn [fst snd]. by rewrite <- !app_assoc.
Qed.

Lemma row_indices_even m y :
  0 ≤ m →
  (λ '(y, x), y * (2 * m) + x) <$> (steps 0 (2 * m) 2 ≫= λ x, [(y, x)])
  = (λ k, 2 * k) <$> seqZ (y * m) m.
Proof.
  intros Hm. rewrite bind_singleton_fmap. unfold steps.
  replace ((2 * m - 0 + 2 - 1) / 2) with m.
  2:{ replace (2 * m - 0 + 2 - 1) with (1 + m * 2) by lia.
      by rewrite Z.div_add by lia. }
  replace (seqZ (y * m) m) with (Z.add (y * m) <$> seqZ 0 m)
    by (rewrite fmap_add_seqZ; f_equal; lia).
  rewrite <- !list_fmap_compose.
  apply list_fmap_ext. intros _ k _. simpl. lia.
Qed.

(** With an even width the first pixels of the pairs are 0, 2, 4, ... in
    row-major order: rows do not interleave. *)
Lemma pair_indices_even m (h : nat) :
  0 ≤ m →
  (λ '(y, x), y * (2 * m) + x) <$> pair_coords (2 * m) (Z.of_nat h)
  = (λ k, 2 * k) <$> seqZ 0 (Z.of_nat h * m).
Proof.
  intros Hm. unfold pair_coords. induction h as [|h IH]; [done|].
  rewrite seqZ_S, bind_app, fmap_app, IH.
  replace (Z.of_nat (S h) * m) with (Z.of_nat h * m + m) by lia.
  rewrite seqZ_app, fmap_app by lia. f_equal.
  cbn [mbind list_bind]. rewrite app_nil_r, !Z.add_0_l.
  apply row_indices_even. lia.
Qed.

(** With an even width the run ends, its accesses are those of the pairs
    0, 1, ..., width * height / 2 - 1 in this order, and the pixel buffer
    ends up as the colors of pixels 0, 1, ..., width * height - 1. *)
Lemma unpack_pixels_even buffer palette width height pixeldata :
  0 ≤ width < 2 ^ 16 → 0 ≤ height < 2 ^ 16 → Z.even width = true →
  wf_palette palette →
  IMAGE_OFFSET + width * height / 2 ≤ Z.of_nat (length (data buffer)) →
  Z.of_nat (length pixeldata) = width * height * 4 →
  unpack_pixels buffer palette width height pixeldata
  = (seqZ 0 (width * height / 2) ≫= pair_events buffer palette,
     Done (seqZ 0 (width * height) ≫= pixel_color buffer palette)).
Proof.
  intros Hw Hh Hev Hpal Hbuf Hlen.
  rewrite unpack_pixels_spec by done. rewrite unpack_spec_indices.
  apply Z.even_spec in Hev as [m ->].
  replace (2 * m * height / 2) with (height * m) in *.
  2:{ replace (2 * m * height) with (height * m * 2) by lia.
      by rewrite Z.div_mul by lia. }
  rewrite <- (Z2Nat.id height) at 1 by lia.
  rewrite pair_indices_even by lia.
  rewrite (Z2Nat.id height) by lia.
  assert (0 ≤ height * m) by nia.
  rewrite <- (Z2Nat.id (height * m)) by done.
  rewrite <- (app_nil_l pixeldata), <- (app_nil_r pixeldata) at 1.
  rewrite (scan_done buffer palette _ Hpal 0 [] pixeldata []);
    [|done|lia|done|lia].
  rewrite app_nil_r, app_nil_l.
  by replace (2 * Z.of_nat (Z.to_nat (height * m))) with (2 * m * height)
    by lia.
Qed.

Lemma store_offsets_app t1 t2 :
  store_offsets (t1 ++ t2) = store_offsets t1 ++ store_offsets t2.
Proof. apply omap_app. Qed.

Lemma store_offsets_pairs buffer palette (n : nat) :
  store_offsets (seqZ 0 (Z.of_nat n) ≫= pair_events buffer palette)
  = (λ p, p * PIXEL_STRIDE) <$> seqZ 0 (2 * Z.of_nat n).
Proof.
  induction n as [|n IH]; [done|].
  rewrite seqZ_S, bind_app, store_offsets_app, IH.
  replace (2 * Z.of_nat (S n)) with (2 * Z.of_nat n + 2) by lia.
  rewrite (seqZ_app 0 (2 * Z.of_nat n) 2), fmap_app by lia.
  f_equal. unfold PIXEL_STRIDE, seqZ. cbn.
  replace (2 * (0 + Z.of_nat n) * 4) with ((0 + (0 + 2 * Z.of_nat n)) * 4) by lia.
  by replace ((2 * (0 + Z.of_nat n) + 1) * 4)
    with ((1 + (0 + 2 * Z.of_nat n)) * 4) by lia.
Qed.

Lemma length_bind_rows {A} (f : Z → list A) (k : nat) a (n : nat) :
  (∀ p, length (f p) = k) → length (seqZ a (Z.of_nat n) ≫= f) = (n * k)%nat.
Proof.
  intros Hf. revert a. induction n as [|n IH]; intros a; [done|].
  rewrite seqZ_cons by lia. cbn [mbind list_bind].
  change (foldr _ _ ?l) with (l ≫= f).
  replace (Z.pred (Z.of_nat (S n))) with (Z.of_nat n) by lia.
  rewrite length_app, Hf, IH. lia.
Qed.

Lemma length_rows (f : Z → list byte) n :
  (∀ q, length (f q) = 4%nat) → 0 ≤ n →
  Z.of_nat (length (seqZ 0 n ≫= f)) = n * 4.
Proof.
  intros Hf Hn. rewrite <- (Z2Nat.id n) at 1 by lia.
  rewrite (length_bind_rows f 4) by done. lia.
Qed.

Lemma pixel_at_rows (f : Z → list byte) n p :
  (∀ q, length (f q) = 4%nat) → 0 ≤ p < n →
  pixel_at (seqZ 0 n ≫= f) p = f p.
Proof.
  intros Hf Hp. unfold pixel_at, PIXEL_STRIDE.
  replace n with (p + (1 + (n - p - 1))) by lia.
  rewrite seqZ_app, bind_app by lia. rewrite seqZ_app, bind_app by lia.
  rewrite drop_app_length'
    by (pose proof (length_rows f p Hf); lia).
  rewrite Z.add_0_l. change (seqZ p 1) with [p]. cbn [mbind list_bind foldr].
  rewrite app_nil_r. by apply take_app_length'.
Qed.

Lemma filter_eq_not_elem (x : Z) (l : list Z) :
  x ∉ l → filter (λ y, y = x) l = [].
Proof.
  induction l as [|y l IH]; [done|]. intros Hx.
  apply not_elem_of_cons in Hx as [? ?].
  rewrite filter_cons_False by congruence. auto.
Qed.

Lemma filter_eq_NoDup (x : Z) (l : list Z) :
  NoDup l → x ∈ l → length (filter (λ y, y = x) l) = 1%nat.
Proof.
  induction 1 as [|y l Hy Hnd IH]; [by intros ?%elem_of_nil|].
  intros [->|Hx]%elem_of_cons.
  - rewrite filter_cons_True by done. by rewrite filter_eq_not_elem.
  - rewrite filter_cons_False by (intros ->; done). auto.
Qed.

(** ** Odd width: the last pair of a row crosses into the next *)

Lemma pair_coords_odd_snoc m height :
  0 ≤ m → 0 < height →
  pair_coords (2 * m + 1) height
  = ((seqZ 0 (height - 1) ≫= λ y, steps 0 (2 * m + 1) 2 ≫= λ x, [(y, x)])
     ++ (steps 0 (2 * m) 2 ≫= λ x, [(height - 1, x)]))
    ++ [(height - 1, 2 * m)].
Proof.
  intros Hm Hh. unfold pair_coords.
  replace height with (height - 1 + 1) at 1 by lia.
  rewrite seqZ_app, bind_app by lia. rewrite <- app_assoc. f_equal.
  change (seqZ (0 + (height - 1)) 1) with [0 + (0 + (height - 1))].
  cbn [mbind list_bind foldr]. rewrite app_nil_r, !Z.add_0_l.
  rewrite steps_odd_snoc by done. by rewrite bind_app.
Qed.

Lemma elem_of_odd_front m height y x :
  0 ≤ m → 0 < height →
  (y, x) ∈ (seqZ 0 (height - 1) ≫= λ y, steps 0 (2 * m + 1) 2 ≫= λ x, [(y, x)])
           ++ (steps 0 (2 * m) 2 ≫= λ x, [(height - 1, x)]) →
  0 ≤ y * (2 * m + 1) + x
  ∧ y * (2 * m + 1) + x + 2 ≤ (2 * m + 1) * height.
Proof.
  intros Hm Hh [Hin|Hin]%elem_of_app.
  - apply list_elem_of_bind in Hin as (y' & Hin & Hy%elem_of_seqZ).
    apply list_elem_of_bind in Hin
      as (x' & [= <- <-]%list_elem_of_singleton & Hx).
    apply elem_of_steps in Hx; [|lia]. nia.
  - apply list_elem_of_bind in Hin
      as (x' & [= -> <-]%list_elem_of_singleton & Hx).
    apply elem_of_steps in Hx as [Hx Hmod]; [|lia].
    rewrite Z.sub_0_r in Hmod.
    assert (x ≤ 2 * m - 2).
    { pose proof (Z.div_mod x 2). lia. }
    nia.
Qed.

(** For an odd width and at least one row, with a bitmap that holds every
    byte the loops read, the run ends in the second memcpy of the last pair
    of the last row: its destination is the byte offset width * height * 4,
    the length of the pixel buffer. *)
Lemma unpack_pixels_odd buffer palette width height pixeldata :
  0 ≤ width < 2 ^ 16 → 0 < height < 2 ^ 16 → Z.odd width = true →
  wf_palette palette →
  IMAGE_OFFSET + (width * height - 1) / 2 < Z.of_nat (length (data buffer)) →
  Z.of_nat (length pixeldata) = width * height * 4 →
  ∃ t c1 c2,
    unpack_pixels buffer palette width height pixeldata
    = (t ++ [Load (IMAGE_OFFSET + (width * height - 1) / 2);
             Store ((width * height - 1) * 4) c1;
             Store (width * height * 4) c2], Fault).
Proof.
  intros Hw Hh Hodd Hpal Hbuf Hlen.
  rewrite unpack_pixels_spec by lia. unfold unpack_spec.
  apply Z.odd_spec in Hodd as [m ->].
  assert (0 ≤ m) as Hm by lia.
  assert (0 ≤ (2 * m + 1) * height - 1) as Hwh by nia.
  rewrite pair_coords_odd_snoc by lia. rewrite foldM_app.
  destruct (foldM_invariant
              (λ s : list byte, length s = length pixeldata)
              (λ '(y, x), pair_at buffer palette (y * (2 * m + 1) + x))
              ((seqZ 0 (height - 1)
                  ≫= λ y, steps 0 (2 * m + 1) 2 ≫= λ x, [(y, x)])
               ++ (steps 0 (2 * m) 2 ≫= λ x, [(height - 1, x)]))
              pixeldata)
    as (t & pixels & Hrun & Hpix); [done| |].
  { intros [y x] s Hin Hs.
    apply elem_of_odd_front in Hin as [Hlo Hhi]; [|done|lia].
    destruct (pair_at_done_len buffer palette Hpal (y * (2 * m + 1) + x) s)
      as (t' & s' & Hr & Hl); [done| |lia|].
    { assert ((y * (2 * m + 1) + x) / 2 ≤ ((2 * m + 1) * height - 1) / 2);
        [|lia].
      apply Z.div_le_mono; lia. }
    exists t', s'. split; [done|congruence]. }
  rewrite Hrun, run_bind_done, foldM_singleton.
  replace ((height - 1) * (2 * m + 1) + 2 * m)
    with ((2 * m + 1) * height - 1) by lia.
  destruct (pair_colors buffer palette Hpal ((2 * m + 1) * height - 1))
    as (b & c1 & c2 & Hb & Hc1 & Hc2 & _); [done|done|].
  rewrite (pair_at_overrun buffer palette Hpal _ pixels b c1 c2)
    by (done || lia).
  exists t, c1, c2. unfold trace, result. cbn [fst snd].
  by replace (((2 * m + 1) * height - 1 + 1) * 4)
    with ((2 * m + 1) * height * 4) by lia.
Qed.

(** ** The whole conversion of one file *)

Lemma length_alloc_pixeldata count :
  0 ≤ count < 2 ^ 30 →
  Z.of_nat (length (alloc_pixeldata count)) = count * 4.
Proof.
  intros Hc. unfold alloc_pixeldata, PIXEL_STRIDE, to_u32.
  rewrite length_replicate, Z.mod_small by lia. lia.
Qed.

Lemma length_alloc_done count :
  0 ≤ count →
  (0 < count → count * 4 ≤ Z.of_nat (length (alloc_pixeldata count))) →
  Z.of_nat (length (alloc_pixeldata count)) = count * 4.
Proof.
  unfold alloc_pixeldata, PIXEL_STRIDE, to_u32. rewrite length_replicate.
  intros Hc Hfit. destruct (decide (count = 0)) as [->|Hne]; [done|].
  pose proof (Z.mod_pos_bound (4 * count) (2 ^ 32)).
  assert (4 * count < 2 ^ 32) by lia.
  rewrite Z.mod_small by lia. lia.
Qed.

(** A run of the loops that ends kept the length of the pixel buffer, and
    that length covers every pixel when there is one. *)
Lemma unpack_pixels_done_inv buffer palette width height pixeldata t pixeldata' :
  0 ≤ width < 2 ^ 16 → 0 ≤ height < 2 ^ 16 →
  unpack_pixels buffer palette width height pixeldata = (t, Done pixeldata') →
  length pixeldata' = length pixeldata
  ∧ (0 < width * height → width * height * 4 ≤ Z.of_nat (length pixeldata)).
Proof.
  intros Hw Hh. rewrite unpack_pixels_spec by done. unfold unpack_spec.
  intros Hrun.
  apply (foldM_done_elem (λ s : list byte, length s = length pixeldata))
    in Hrun as [Hlen Hall]; [|done|].
  2:{ intros [y x] s t' s' _ [_ Hl]%pair_at_done_inv Hs. congruence. }
  split; [done|]. intros Hpos.
  assert (0 < width ∧ 0 < height) as [Hw0 Hh0] by nia.
  destruct (Hall (height - 1, 2 * ((width - 1) / 2)))
    as (s1 & t1 & s2 & Hs1 & Hstep).
  { apply elem_of_pair_coords.
    pose proof (Z.div_mod (width - 1) 2).
    pose proof (Z.mod_pos_bound (width - 1) 2).
    split_and!; try lia.
    rewrite Z.mul_comm. apply Z.mod_mul. lia. }
  apply pair_at_done_inv in Hstep as [Hb _].
  pose proof (Z.div_mod (width - 1) 2).
  pose proof (Z.mod_pos_bound (width - 1) 2).
  rewrite Hs1 in Hb. nia.
Qed.

(** The image of a file with an even width, when the buffer holds the whole
    bitmap and the byte size fits 32 bits. *)
Lemma to_png_file_even buffer tv w0 w1 h0 h1 :
  validate_file buffer = (tv, Done true) →
  at_index (data buffer) 0x424 = Some w0 →
  at_index (data buffer) 0x425 = Some w1 →
  at_index (data buffer) 0x426 = Some h0 →
  at_index (data buffer) 0x427 = Some h1 →
  Z.even (le16 w0 w1) = true →
  le16 w0 w1 * le16 h0 h1 < 2 ^ 30 →
  IMAGE_OFFSET + le16 w0 w1 * le16 h0 h1 / 2 ≤ Z.of_nat (length (data buffer)) →
  ∃ t,
    to_png_file buffer
    = (t, Done (Written
         {| png_w := le16 w0 w1;
            png_h := le16 h0 h1;
            png_comp := 4;
            png_data :=
              seqZ 0 (le16 w0 w1 * le16 h0 h1)
              ≫= pixel_color buffer
                    ([x00; x00; x00; x00]
                     :: (palette_entry buffer <$> seqZ 1 15));
            png_stride := le16 w0 w1 * 4 |})).
Proof.
  intros Hv Hw0 Hw1 Hh0 Hh1 Hev Hsmall Hbuf.
  pose proof (le16_range w0 w1) as Hw. pose proof (le16_range h0 h1) as Hh.
  assert (0 ≤ le16 w0 w1 * le16 h0 h1) as Hwh by nia.
  assert (0 ≤ le16 w0 w1 * le16 h0 h1 / 2) by (apply Z.div_pos; lia).
  unfold to_png_file. rewrite Hv, run_bind_done. cbn [negb].
  rewrite read_palette_done by (unfold PALETTE_OFFSET, IMAGE_OFFSET in *; lia).
  rewrite run_bind_done.
  rewrite (read_u16_done buffer WIDTH_OFFSET w0 w1) by done.
  rewrite run_bind_done.
  rewrite (read_u16_done buffer HEIGHT_OFFSET h0 h1) by done.
  rewrite run_bind_done.
  rewrite pixel_count_done, run_bind_ret by (unfold INT_MAX; lia).
  rewrite unpack_pixels_even;
    [|done|done|done|apply wf_read_palette|done
     |by apply length_alloc_pixeldata].
  rewrite run_bind_done. eexists. unfold trace, result. cbn [fst snd].
  unfold mret, run_mret, run_ret. do 3 f_equal.
  unfold PIXEL_STRIDE. rewrite !to_int_small by lia. done.
Qed.

(** From 2^30 pixels on, the byte size [PIXEL_STRIDE * count] no longer fits
    the 32 bits it is computed in: for 32768 by 32768 pixels the count is
    exact, the pixel buffer has no byte, and the first memcpy of the run is
    out of bounds. *)
Lemma huge_image_overruns :
  pixel_count 0x8000 0x8000 = mret (0x8000 * 0x8000)
  ∧ alloc_pixeldata (0x8000 * 0x8000) = []
  ∧ result (to_png_file huge_buffer) = Fault
  ∧ List.last (trace (to_png_file huge_buffer)) (Load 0)
    = Store 0 transparent.
Proof. by vm_compute. Qed.

(** ** The loop bounds of the model are large enough *)

Lemma run_bind_fuel {A B} (m : run A) (f : A → run B) :
  result m ≠ OutOfFuel →
  (∀ t a, m = (t, Done a) → result (f a) ≠ OutOfFuel) →
  result (m ≫= f) ≠ OutOfFuel.
Proof.
  destruct m as [t [a| |]]; intros Hm Hf; try done.
  rewrite run_bind_done. by eapply Hf.
Qed.

Lemma foldM_fuel {A S} (f : A → S → run S) l s :
  (∀ a s, result (f a s) ≠ OutOfFuel) → result (foldM f l s) ≠ OutOfFuel.
Proof.
  intros Hf. revert s. induction l as [|a l IH]; intros s; [done|].
  cbn [foldM]. apply run_bind_fuel; [done|]. intros _ s' _. apply IH.
Qed.

Lemma load_fuel buffer off : result (load buffer off) ≠ OutOfFuel.
Proof. unfold load, result. cbn. by destruct (at_index _ _). Qed.

Lemma palette_row_fuel palette index :
  result (palette_row palette index) ≠ OutOfFuel.
Proof. unfold palette_row. by destruct (at_index _ _). Qed.

Lemma memcpy_fuel pixeldata off src :
  result (memcpy pixeldata off src) ≠ OutOfFuel.
Proof. unfold memcpy, result. cbn. by case_decide. Qed.

Lemma validate_loop_fuel fuel buffer i :
  0 ≤ i → Z.max 0 (SIGNATURE_LENGTH - i) < Z.of_nat fuel →
  result (validate_loop fuel buffer i) ≠ OutOfFuel.
Proof.
  revert i. induction fuel as [|fuel IH]; intros i Hi Hf.
  { unfold SIGNATURE_LENGTH in *. lia. }
  cbn [validate_loop]. case_decide as Hlt; [|done].
  apply run_bind_fuel; [apply load_fuel|]. intros _ b _.
  destruct (at_index ExpectedSignature i); [|done].
  case_decide; [done|]. unfold to_u64, SIGNATURE_LENGTH in *.
  rewrite Z.mod_small by lia. apply IH; lia.
Qed.

Lemma read_u16_fuel buffer off : result (read_u16 buffer off) ≠ OutOfFuel.
Proof.
  unfold read_u16.
  apply run_bind_fuel; [apply load_fuel|intros _ lo _].
  apply run_bind_fuel; [apply load_fuel|intros _ hi _]. done.
Qed.

(** No run of the conversion of a file stops for lack of fuel: it ends with
    a result or at an undefined operation. *)
Lemma to_png_file_fuel fileBuffer :
  result (to_png_file fileBuffer) ≠ OutOfFuel.
Proof.
  unfold to_png_file. apply run_bind_fuel.
  { apply validate_loop_fuel; [done|by vm_compute]. }
  intros _ [|] _; cbn [negb]; [|done].
  apply run_bind_fuel.
  { unfold read_palette. rewrite for_u64_steps by (by vm_compute).
    apply foldM_fuel. intros i pal. unfold palette_body.
    repeat (apply run_bind_fuel; [apply load_fuel|intros _ ? _]). done. }
  intros _ palette _.
  apply run_bind_fuel; [apply read_u16_fuel|intros tw width Hw].
  apply run_bind_fuel; [apply read_u16_fuel|intros th height Hh].
  apply read_u16_done_inv in Hw, Hh.
  apply run_bind_fuel.
  { unfold pixel_count. by case_decide. }
  intros _ count _.
  apply run_bind_fuel; [|done].
  rewrite unpack_pixels_spec by done. apply foldM_fuel.
  intros [y x] s. unfold pair_at.
  apply run_bind_fuel; [apply load_fuel|intros _ b _].
  apply run_bind_fuel; [apply palette_row_fuel|intros _ c1 _].
  apply run_bind_fuel; [apply memcpy_fuel|intros _ pix _].
  apply run_bind_fuel; [apply palette_row_fuel|intros _ c2 _].
  apply memcpy_fuel.
Qed.

(** * The claims *)

Lemma wf_sample_palette : wf_palette sample_palette.
Proof. split; [done|]. repeat constructor. Defined.

(** C1: the pixel unpacker walks rows y in [0, height) and columns x in
    [0, width) in steps of 2, in this order.  For each pair, with
    i1 = y * width + x and i2 = i1 + 1, it loads the byte at
    IMAGE_OFFSET + (i1 >> 1) of the file, and then copies the palette row of
    the low nibble of that byte to the four bytes at offset i1 * 4 of the
    pixel buffer and the palette row of its high nibble to the four bytes at
    offset i2 * 4, leaving every other byte of the pixel buffer as it was:
    these are the three accesses of the pair.  Every run of the unpacker
    that gets through the image has made exactly these accesses, pair after
    pair. *)
Theorem C1_unpack_algorithm buffer palette width height pixeldata :
  0 ≤ width < 2 ^ 16 → 0 ≤ height < 2 ^ 16 → wf_palette palette →
  unpack_pixels buffer palette width height pixeldata
  = foldM (λ '(y, x), pair_body buffer palette width y x)
      (pair_coords width height) pixeldata
  ∧ (∀ y x, (y, x) ∈ pair_coords width height
            ↔ 0 ≤ y < height ∧ 0 ≤ x < width ∧ x mod 2 = 0)
  ∧ (∀ y x pixels b,
       0 ≤ y < height → 0 ≤ x < width →
       at_index (data buffer) (IMAGE_OFFSET + (y * width + x) / 2) = Some b →
       (y * width + x + 1) * 4 + 4 ≤ Z.of_nat (length pixels) →
       ∃ c1 c2,
         at_index palette (byteZ b mod 16) = Some c1
         ∧ at_index palette (byteZ b / 16) = Some c2
         ∧ length c1 = 4%nat ∧ length c2 = 4%nat
         ∧ pair_body buffer palette width y x pixels
           = ([Load (IMAGE_OFFSET + (y * width + x) / 2);
               Store ((y * width + x) * 4) c1;
               Store ((y * width + x + 1) * 4) c2],
              Done (take (Z.to_nat (4 * (y * width + x))) pixels
                    ++ (c1 ++ c2)
                    ++ drop (Z.to_nat (4 * (y * width + x)) + 8) pixels)))
  ∧ (∀ y x pixels,
       0 ≤ y < height → 0 ≤ x < width →
       at_index (data buffer) (IMAGE_OFFSET + (y * width + x) / 2) = None →
       pair_body buffer palette width y x pixels
       = ([Load (IMAGE_OFFSET + (y * width + x) / 2)], Fault))
  ∧ (∀ t pixeldata',
       unpack_pixels buffer palette width height pixeldata
       = (t, Done pixeldata') →
       t = pair_coords width height
           ≫= (λ '(y, x),
                 let i1 := y * width + x in
                 let b := byte_at buffer (IMAGE_OFFSET + i1 / 2) in
                 [Load (IMAGE_OFFSET + i1 / 2);
                  Store (i1 * 4) (default [] (at_index palette (byteZ b mod 16)));
                  Store ((i1 + 1) * 4)
                    (default [] (at_index palette (byteZ b / 16)))])
       ∧ length pixeldata' = length pixeldata).
Proof.
  intros Hw Hh Hpal. split_and!.
  - rewrite unpack_pixels_spec by done. unfold unpack_spec.
    apply foldM_ext. intros [y x] s Hin.
    apply elem_of_pair_coords in Hin. symmetry.
    apply pair_body_pair_at; lia.
  - intros y x. apply elem_of_pair_coords.
  - intros y x pixels b Hy Hx Hb Hlen.
    assert (0 ≤ y * width + x) as Hi by nia.
    destruct (pair_colors buffer palette Hpal (y * width + x))
      as (b' & c1 & c2 & Hb' & Hc1 & Hc2 & Hl1 & Hl2); [done| |].
    { pose proof (at_index_length _ _ _ Hb). lia. }
    assert (b' = b) as -> by congruence.
    exists c1, c2. split_and!; try done.
    rewrite pair_body_pair_at by lia.
    apply (pair_at_done buffer palette Hpal _ pixels b c1 c2); try done. lia.
  - intros y x pixels Hy Hx Hb.
    rewrite pair_body_pair_at by lia. unfold pair_at.
    by rewrite (load_None _ _ Hb).
  - intros t pixeldata' Hrun. split.
    + rewrite unpack_pixels_spec in Hrun by done. unfold unpack_spec in Hrun.
      apply (foldM_done_trace _ _ _ _ _ _ Hrun).
      intros [y x] s t' s' Hin Hstep.
      apply elem_of_pair_coords in Hin.
      apply (pair_at_done_trace buffer palette Hpal _ _ _ _ Hstep). nia.
    + by apply unpack_pixels_done_inv in Hrun as [Hlen _].
Qed.

Lemma C1_unpack_algorithm_witness :
  ∃ c1 c2,
    c1 = transparent ∧ c2 = red
    ∧ pair_body sample_buffer sample_palette 4 0 0 (replicate 32 x00)
      = ([Load 0x470; Store 0 c1; Store 4 c2],
         Done (c1 ++ c2 ++ replicate 24 x00)).
Proof.
  destruct (C1_unpack_algorithm sample_buffer sample_palette 4 2
              (replicate 32 x00)) as (_ & _ & Hpair & _);
    [lia|lia|apply wf_sample_palette|].
  destruct (Hpair 0 0 (replicate 32 x00) x10)
    as (c1 & c2 & Hc1 & Hc2 & _ & _ & Hrun); [lia|lia|reflexivity|by vm_compute|].
  exists c1, c2.
  assert (c1 = transparent) as ->
    by (vm_compute in Hc1; by injection Hc1 as <-).
  assert (c2 = red) as -> by (vm_compute in Hc2; by injection Hc2 as <-).
  split_and!; [done|done|exact Hrun].
Defined.

Lemma scenario_sample : scenario sample_buffer.
Proof. repeat split. Defined.

(** C2, as the program behaves: in the scenario the bitmap byte 0x10 has
    low nibble 0 and high nibble 1, and 0x01 has low nibble 1 and high
    nibble 0, so row 0 is transparent, red, red, transparent (the low nibble
    of each byte is the left pixel of its pair). *)
Theorem C2_scenario_row0 buffer :
  scenario buffer →
  ∃ t r,
    to_png_file buffer = (t, Done r)
    ∧ first_pixels 4 r = Some (transparent ++ red ++ red ++ transparent).
Proof.
  intros (Hsig & Hw0 & Hw1 & Hh0 & Hh1 & Hr & Hg & Hb & B0 & B1 & B2 & B3).
  pose proof (at_index_length _ _ _ B3) as Hlen.
  destruct (validate_file_true buffer Hsig) as [tv Hv].
  destruct (to_png_file_even buffer tv x04 x00 x02 x00) as [t Hrun];
    [done|done|done|done|done|done|by vm_compute| |].
  { change (IMAGE_OFFSET + le16 x04 x00 * le16 x02 x00 / 2) with 0x474. lia. }
  eexists _, _. split; [exact Hrun|]. cbn [first_pixels png_data].
  change (seqZ 0 (le16 x04 x00 * le16 x02 x00)) with [0; 1; 2; 3; 4; 5; 6; 7].
  assert (palette_entry buffer 1 = red) as Hred.
  { unfold palette_entry, byte_at.
    change (PALETTE_OFFSET + 1 * 4) with 0x434.
    change (0x434 + 1) with 0x435. change (0x434 + 2) with 0x436.
    by rewrite Hr, Hg, Hb. }
  assert (bitmap_byte buffer 0 = x10 ∧ bitmap_byte buffer 1 = x10
          ∧ bitmap_byte buffer 2 = x01 ∧ bitmap_byte buffer 3 = x01)
    as (E0 & E1 & E2 & E3).
  { unfold bitmap_byte.
    change (IMAGE_OFFSET + 0 / 2) with 0x470.
    change (IMAGE_OFFSET + 1 / 2) with 0x470.
    change (IMAGE_OFFSET + 2 / 2) with 0x471.
    change (IMAGE_OFFSET + 3 / 2) with 0x471.
    by rewrite B0, B1. }
  cbn [mbind list_bind foldr]. unfold pixel_color at 1 2 3 4.
  unfold pixel_index. rewrite E0, E1, E2, E3.
  change (seqZ 1 15) with [1; 2; 3; 4; 5; 6; 7; 8; 9; 10; 11; 12; 13; 14; 15].
  cbn [fmap list_fmap]. rewrite Hred. done.
Qed.

Lemma C2_scenario_row0_witness :
  ∃ t r,
    to_png_file sample_buffer = (t, Done r)
    ∧ first_pixels 4 r = Some (transparent ++ red ++ red ++ transparent).
Proof. exact (C2_scenario_row0 sample_buffer scenario_sample). Defined.

(** C2, as the document states it: the row it expects in the scenario (red,
    transparent, red, transparent) is not the row the program produces. *)
Lemma C2_claimed_row0_counterexample :
  ¬ (∀ buffer, scenario buffer →
       ∃ t r,
         to_png_file buffer = (t, Done r)
         ∧ first_pixels 4 r = Some (red ++ transparent ++ red ++ transparent)).
Proof.
  intros H. destruct (H sample_buffer scenario_sample) as (t & r & Hrun & Hrow).
  vm_compute in Hrun. injection Hrun as _ <-. discriminate Hrow.
Qed.

(** C3: the decoded palette has 16 entries; entry 0 is (0,0,0,0) whatever
    the file holds in slot 0, and entry i, for i from 1 to 15, has the three
    bytes at PALETTE_OFFSET + i * 4 as R, G, B and alpha 255 whatever the
    fourth byte of the slot is.  The decoder loads neither a byte of slot 0
    nor the fourth byte of any slot. *)
Theorem C3_palette_entries buffer :
  PALETTE_OFFSET + 63 ≤ Z.of_nat (length (data buffer)) →
  ∃ t palette,
    read_palette buffer = (t, Done palette)
    ∧ length palette = 16%nat
    ∧ at_index palette 0 = Some [x00; x00; x00; x00]
    ∧ (∀ i, 1 ≤ i ≤ 15 →
         ∃ r g b,
           at_index (data buffer) (PALETTE_OFFSET + i * 4) = Some r
           ∧ at_index (data buffer) (PALETTE_OFFSET + i * 4 + 1) = Some g
           ∧ at_index (data buffer) (PALETTE_OFFSET + i * 4 + 2) = Some b
           ∧ at_index palette i = Some [r; g; b; xff])
    ∧ (∀ off, Load off ∈ t →
         PALETTE_OFFSET + 4 ≤ off < PALETTE_OFFSET + PALETTE_SIZE
         ∧ (off - PALETTE_OFFSET) mod 4 ≠ 3).
Proof.
  intros Hbuf. eexists _, _. split; [by apply read_palette_done|].
  split_and!; [done|done| |].
  - intros i Hi.
    exists (byte_at buffer (PALETTE_OFFSET + i * 4)),
      (byte_at buffer (PALETTE_OFFSET + i * 4 + 1)),
      (byte_at buffer (PALETTE_OFFSET + i * 4 + 2)).
    unfold PALETTE_OFFSET in *.
    split_and!; try (apply byte_at_Some; lia).
    apply at_index_Some. split; [lia|].
    replace (Z.to_nat i) with (S (Z.to_nat (i - 1))) by lia.
    change (((palette_entry buffer <$> seqZ 1 15) !! Z.to_nat (i - 1))
            = Some [byte_at buffer (1072 + i * 4);
                    byte_at buffer (1072 + i * 4 + 1);
                    byte_at buffer (1072 + i * 4 + 2); xff]).
    rewrite list_lookup_fmap.
    rewrite lookup_seqZ_lt by lia. cbn [fmap option_fmap option_map].
    unfold palette_entry, PALETTE_OFFSET.
    by replace (1 + Z.of_nat (Z.to_nat (i - 1))) with i by lia.
  - intros off (i & Hoff & Hi%elem_of_seqZ)%list_elem_of_bind.
    unfold palette_loads, PALETTE_OFFSET, PALETTE_SIZE in *.
    assert (∃ k, 0 ≤ k < 3 ∧ off = 1072 + i * 4 + k) as (k & Hk & ->).
    { apply elem_of_cons in Hoff as [[= ->]|Hoff]; [exists 0; lia|].
      apply elem_of_cons in Hoff as [[= ->]|Hoff]; [exists 1; lia|].
      apply elem_of_cons in Hoff as [[= ->]|Hoff]; [exists 2; lia|].
      by apply elem_of_nil in Hoff. }
    split; [lia|].
    replace (1072 + i * 4 + k - 1072) with (k + i * 4) by lia.
    rewrite Z.mod_add by lia. rewrite Z.mod_small by lia. lia.
Qed.

Lemma C3_palette_entries_witness :
  ∃ t palette,
    read_palette sample_buffer = (t, Done palette)
    ∧ at_index palette 0 = Some [x00; x00; x00; x00]
    ∧ at_index palette 1 = Some [xff; x00; x00; xff].
Proof.
  destruct (C3_palette_entries sample_buffer)
    as (t & pal & Hrun & _ & H0 & Hi & _); [by vm_compute|].
  exists t, pal. split_and!; [exact Hrun|exact H0|].
  destruct (Hi 1) as (r & g & b & Hr & Hg & Hb & Hrow); [lia|].
  vm_compute in Hr, Hg, Hb.
  injection Hr as <-. injection Hg as <-. injection Hb as <-. exact Hrow.
Defined.

(** C4: on a buffer that holds the four signature bytes, validate_file
    returns true exactly when the bytes at offsets 0 to 3 are 47 41 4E 10,
    in this order; with 47 41 4E 11 it returns false.  It reads nothing
    beyond offset 3. *)
Theorem C4_validate_signature buffer :
  (4 ≤ length (data buffer))%nat →
  ∃ t v,
    validate_file buffer = (t, Done v)
    ∧ (v = true ↔ take 4 (data buffer) = [x47; x41; x4e; x10])
    ∧ (take 4 (data buffer) = [x47; x41; x4e; x11] → v = false)
    ∧ t `prefix_of` [Load 0; Load 1; Load 2; Load 3].
Proof.
  destruct buffer as [[|b0 [|b1 [|b2 [|b3 rest]]]] sz]; cbn [data length];
    try lia.
  intros _. destruct (validate_file_four b0 b1 b2 b3 rest sz) as (t & Hrun & Ht).
  exists t, (bool_decide ([b0; b1; b2; b3] = ExpectedSignature)).
  split_and!; [done| | |done]; cbn [take].
  - by rewrite bool_decide_eq_true.
  - intros [= -> -> -> ->]. done.
Qed.

Lemma C4_validate_signature_witness :
  ∃ t v,
    validate_file (buffer_of [x47; x41; x4e; x11; x00]) = (t, Done v)
    ∧ v = false.
Proof.
  destruct (C4_validate_signature (buffer_of [x47; x41; x4e; x11; x00]))
    as (t & v & Hrun & _ & Hbad & _); [cbn; lia|].
  exists t, v. split; [exact Hrun|]. apply Hbad. reflexivity.
Defined.

(** C5: with an odd width, the last pair of every row y (x = width - 1)
    copies the color of the high nibble to linear pixel index
    (y + 1) * width, the first pixel of row y + 1; in the last row that
    destination is pixel width * height, byte offset width * height * 4,
    one pixel past the end of the pixel buffer, and the run ends there. *)
Theorem C5_odd_width_overrun buffer palette width height pixeldata :
  0 ≤ width < 2 ^ 16 → 0 < height < 2 ^ 16 → Z.odd width = true →
  wf_palette palette →
  IMAGE_OFFSET + (width * height - 1) / 2 < Z.of_nat (length (data buffer)) →
  Z.of_nat (length pixeldata) = width * height * 4 →
  (∀ y, 0 ≤ y < height →
     (y, width - 1) ∈ pair_coords width height
     ∧ ∃ b c1 c2,
         at_index (data buffer)
           (IMAGE_OFFSET + (y * width + (width - 1)) / 2) = Some b
         ∧ at_index palette (byteZ b mod 16) = Some c1
         ∧ at_index palette (byteZ b / 16) = Some c2
         ∧ ∀ pixels, Z.of_nat (length pixels) = width * height * 4 →
             trace (pair_body buffer palette width y (width - 1) pixels)
             = [Load (IMAGE_OFFSET + (y * width + (width - 1)) / 2);
                Store ((y * width + (width - 1)) * 4) c1;
                Store ((y + 1) * width * 4) c2]
             ∧ (y < height - 1 →
                  ∃ pixels',
                    result (pair_body buffer palette width y (width - 1) pixels)
                    = Done pixels'
                    ∧ pixel_at pixels' ((y + 1) * width) = c2)
             ∧ (y = height - 1 →
                  result (pair_body buffer palette width y (width - 1) pixels)
                  = Fault))
  ∧ ∃ t c1 c2,
      unpack_pixels buffer palette width height pixeldata
      = (t ++ [Load (IMAGE_OFFSET + (width * height - 1) / 2);
               Store ((width * height - 1) * 4) c1;
               Store (width * height * 4) c2], Fault).
Proof.
  intros Hw Hh Hodd Hpal Hbuf Hlen.
  split; [|by apply unpack_pixels_odd].
  pose proof Hodd as [m Hm]%Z.odd_spec.
  intros y Hy. split.
  { apply elem_of_pair_coords. split_and!; try lia.
    replace (width - 1) with (m * 2) by lia. apply Z.mod_mul. lia. }
  set (i1 := y * width + (width - 1)).
  assert (0 ≤ i1 ∧ i1 ≤ width * height - 1) as [Hi0 Hi1] by (unfold i1; nia).
  assert (0 ≤ i1 / 2 ≤ (width * height - 1) / 2) as Hhalf.
  { split; [apply Z.div_pos; lia|apply Z.div_le_mono; lia]. }
  destruct (pair_colors buffer palette Hpal i1)
    as (b & c1 & c2 & Hb & Hc1 & Hc2 & Hl1 & Hl2); [done|lia|].
  exists b, c1, c2. split_and!; [done|done|done|].
  intros pixels Hpix. rewrite pair_body_pair_at by lia. fold i1.
  replace ((y + 1) * width * 4) with ((i1 + 1) * 4) by (unfold i1; lia).
  destruct (decide (y = height - 1)) as [Hlast|Hnot].
  - rewrite (pair_at_overrun buffer palette Hpal i1 pixels b c1 c2)
      by (done || (unfold i1; nia)).
    split_and!; [done|lia|done].
  - rewrite (pair_at_done buffer palette Hpal i1 pixels b c1 c2)
      by (done || (unfold i1; nia)).
    split_and!; [done| |done].
    intros _. eexists. split; [done|].
    replace ((y + 1) * width) with (i1 + 1) by (unfold i1; lia).
    apply pixel_at_overwritten; try done. unfold i1; nia.
Qed.

Lemma C5_odd_width_overrun_witness :
  ∃ t c1 c2,
    unpack_pixels odd_buffer sample_palette 3 1 (replicate 12 x00)
    = (t ++ [Load (IMAGE_OFFSET + (3 * 1 - 1) / 2);
             Store ((3 * 1 - 1) * 4) c1; Store (3 * 1 * 4) c2], Fault).
Proof.
  apply (C5_odd_width_overrun odd_buffer sample_palette 3 1
           (replicate 12 x00));
    [lia|lia|reflexivity|apply wf_sample_palette|by vm_compute|by vm_compute].
Defined.

(** C6, as the program behaves: the pixel buffer of line 100 is not always
    the width * height * 4 bytes the unpacker writes to.  Its size
    PIXEL_STRIDE * count is computed in 32 bits, so from 2^30 pixels on the
    buffer is shorter than that.  The file whose header announces 32768 by
    32768 pixels (an even width; the count 2^30 is exact) gets a pixel buffer
    of no byte at all: the unpacker loads the first bitmap byte, and its
    first copy, to pixel 0, is already outside the buffer.  No pixel of the
    image is written. *)
Theorem C6_pixel_buffer_size_wraps :
  (∀ count, 2 ^ 30 ≤ count < 2 ^ 32 →
     Z.of_nat (length (alloc_pixeldata count)) < count * 4)
  ∧ validate_file huge_buffer = (Load <$> seqZ 0 4, Done true)
  ∧ read_u16 huge_buffer WIDTH_OFFSET = ([Load 0x424; Load 0x425], Done 0x8000)
  ∧ read_u16 huge_buffer HEIGHT_OFFSET = ([Load 0x426; Load 0x427], Done 0x8000)
  ∧ Z.even 0x8000 = true
  ∧ pixel_count 0x8000 0x8000 = mret (2 ^ 30)
  ∧ alloc_pixeldata (2 ^ 30) = []
  ∧ unpack_pixels huge_buffer (decoded_palette huge_buffer) 0x8000 0x8000
      (alloc_pixeldata (2 ^ 30))
    = ([Load 0x470; Store 0 [x00; x00; x00; x00]], Fault)
  ∧ to_png_file huge_buffer
    = ((Load <$> seqZ 0 4) ++ (seqZ 1 15 ≫= palette_loads)
       ++ [Load 0x424; Load 0x425; Load 0x426; Load 0x427]
       ++ [Load 0x470; Store 0 [x00; x00; x00; x00]], Fault).
Proof.
  split.
  { intros count Hc. unfold alloc_pixeldata, PIXEL_STRIDE, to_u32.
    rewrite length_replicate.
    pose proof (Z.mod_pos_bound (4 * count) (2 ^ 32)). lia. }
  split_and!; by vm_compute.
Qed.

(** C7: width is the unsigned 16-bit little-endian integer stored at offset
    0x424 and height the one stored at offset 0x426; each field is read
    with its own two loads. *)
Theorem C7_header_fields buffer w0 w1 h0 h1 :
  at_index (data buffer) 0x424 = Some w0 →
  at_index (data buffer) 0x425 = Some w1 →
  at_index (data buffer) 0x426 = Some h0 →
  at_index (data buffer) 0x427 = Some h1 →
  read_u16 buffer WIDTH_OFFSET
  = ([Load 0x424; Load 0x425], Done (byteZ w0 + 256 * byteZ w1))
  ∧ read_u16 buffer HEIGHT_OFFSET
    = ([Load 0x426; Load 0x427], Done (byteZ h0 + 256 * byteZ h1)).
Proof.
  intros Hw0 Hw1 Hh0 Hh1. split.
  - by rewrite (read_u16_done buffer WIDTH_OFFSET w0 w1).
  - by rewrite (read_u16_done buffer HEIGHT_OFFSET h0 h1).
Qed.

Lemma C7_header_fields_witness :
  read_u16 sample_buffer WIDTH_OFFSET = ([Load 0x424; Load 0x425], Done 4)
  ∧ read_u16 sample_buffer HEIGHT_OFFSET = ([Load 0x426; Load 0x427], Done 2).
Proof.
  apply (C7_header_fields sample_buffer x04 x00 x02 x00); reflexivity.
Defined.

(** C8, as the program behaves: validate_file has no length check and
    never looks at [size].  On the empty buffer that readFromFile returns
    for a file it could not open or read in full, on a file of no byte, and
    on every buffer that is a proper prefix of the signature, it indexes
    the array past its end instead of returning false; to_png hands such a
    buffer to it unguarded. *)
Theorem C8_validate_short_buffer_reads_out_of_bounds :
  validate_file (readFromFile Unopenable) = ([Load 0], Fault)
  ∧ validate_file (readFromFile (Opened [x47; x41; x4e; x10] 3))
    = ([Load 0], Fault)
  ∧ validate_file (readFromFile (Opened [] 0)) = ([Load 0], Fault)
  ∧ validate_file (readFromFile (Opened [x47; x41] 2))
    = ([Load 0; Load 1; Load 2], Fault)
  ∧ (∀ (k : nat) sz, (k < 4)%nat →
       validate_file (mkBuffer (take k ExpectedSignature) sz)
       = (Load <$> seqZ 0 (Z.of_nat k + 1), Fault))
  ∧ to_png (Some [Regular Unopenable]) = ([Load 0], Fault).
Proof.
  split_and!; try done.
  intros k sz Hk. destruct k as [|[|[|[|k]]]]; try lia; done.
Qed.

Lemma validate_sample :
  validate_file sample_buffer
  = ([Load 0; Load 1; Load 2; Load 3], Done true).
Proof. reflexivity. Defined.

(** C9: for a file that passes validation, whenever the PNG writer is
    called, its width and height are the two header fields, its component
    count is 4, its pixel data is the buffer the unpacker filled, of
    width * height * 4 bytes, and its row stride is width * 4; and the
    writer is called for every such file that holds its whole bitmap, has
    an even width and fewer than 2^30 pixels. *)
Theorem C9_sink_arguments buffer tv :
  validate_file buffer = (tv, Done true) →
  (∀ t r, to_png_file buffer = (t, Done r) →
     ∃ call tw th width height tp palette tu,
       r = Written call
       ∧ read_u16 buffer WIDTH_OFFSET = (tw, Done width)
       ∧ read_u16 buffer HEIGHT_OFFSET = (th, Done height)
       ∧ png_w call = width ∧ png_h call = height
       ∧ png_comp call = PIXEL_STRIDE
       ∧ read_palette buffer = (tp, Done palette)
       ∧ unpack_pixels buffer palette width height
           (alloc_pixeldata (width * height)) = (tu, Done (png_data call))
       ∧ Z.of_nat (length (png_data call)) = width * height * 4
       ∧ png_stride call = width * 4)
  ∧ (∀ w0 w1 h0 h1,
       at_index (data buffer) 0x424 = Some w0 →
       at_index (data buffer) 0x425 = Some w1 →
       at_index (data buffer) 0x426 = Some h0 →
       at_index (data buffer) 0x427 = Some h1 →
       Z.even (le16 w0 w1) = true →
       le16 w0 w1 * le16 h0 h1 < 2 ^ 30 →
       IMAGE_OFFSET + le16 w0 w1 * le16 h0 h1 / 2
       ≤ Z.of_nat (length (data buffer)) →
       ∃ t call,
         to_png_file buffer = (t, Done (Written call))
         ∧ png_w call = le16 w0 w1 ∧ png_h call = le16 h0 h1).
Proof.
  intros Hv. split.
  - intros t r. unfold to_png_file. rewrite Hv, run_bind_done. cbn [negb].
    intros [= _ Hrun].
    destruct (read_palette buffer ≫= _) as [t' r'] eqn:Hrest.
    cbn [result snd] in Hrun. subst r'.
    apply run_bind_done_inv in Hrest as (tp & palette & ? & Hpal & Hrest & _).
    apply run_bind_done_inv in Hrest as (tw & width & ? & Hwidth & Hrest & _).
    apply run_bind_done_inv in Hrest as (th & height & ? & Hheight & Hrest & _).
    apply run_bind_done_inv in Hrest as (tc & count & ? & Hcount & Hrest & _).
    apply run_bind_done_inv in Hrest as (tu & pixels & ? & Hunpack & Hrest & _).
    injection Hrest as _ <-.
    pose proof (read_u16_done_inv _ _ _ _ Hwidth) as Hw.
    pose proof (read_u16_done_inv _ _ _ _ Hheight) as Hh.
    apply pixel_count_done_inv in Hcount as (_ & -> & _); [|lia|lia].
    pose proof Hunpack as [Hlen Hfit]%unpack_pixels_done_inv; [|done..].
    eexists _, tw, th, width, height, tp, palette, tu.
    split_and!; try done; cbn.
    + apply to_int_small. lia.
    + apply to_int_small. lia.
    + rewrite Hlen. apply length_alloc_done; [nia|done].
    + unfold PIXEL_STRIDE. apply to_int_small. lia.
  - intros w0 w1 h0 h1 Hw0 Hw1 Hh0 Hh1 Hev Hsmall Hbuf.
    destruct (to_png_file_even buffer tv w0 w1 h0 h1) as [t Hrun]; try done.
    eexists _, _. split; [exact Hrun|]. done.
Qed.

Lemma C9_sink_arguments_witness :
  ∃ t call,
    to_png_file sample_buffer = (t, Done (Written call))
    ∧ png_w call = 4 ∧ png_h call = 2.
Proof.
  destruct (C9_sink_arguments sample_buffer _ validate_sample) as [_ Hcalled].
  apply (Hcalled x04 x00 x02 x00); by vm_compute.
Defined.

(** C10, as the program behaves: the product width * height of line 98 is
    formed in int, after the promotion of its two u16 operands, and only
    then converted to the u32 count.  Up to INT_MAX = 2^31 - 1 the count is
    the exact product.  From 2^31 on (65535 * 65535, which is below 2^32 and
    would fit the count) the multiplication is a signed overflow, undefined
    behaviour: the file whose header announces 65535 by 65535 pixels takes
    the conversion there, right after the header is read and before any
    pixel is stored. *)
Theorem C10_pixel_count_signed_overflow :
  (∀ width height,
     0 ≤ width < 2 ^ 16 → 0 ≤ height < 2 ^ 16 →
     width * height ≤ INT_MAX →
     pixel_count width height = mret (width * height))
  ∧ (∀ width height,
       INT_MAX < width * height → pixel_count width height = fault)
  ∧ (0 ≤ 65535 < 2 ^ 16 ∧ INT_MAX < 65535 * 65535 < 2 ^ 32)
  ∧ pixel_count 65535 65535 = ([], Fault)
  ∧ validate_file overflow_buffer = (Load <$> seqZ 0 4, Done true)
  ∧ read_u16 overflow_buffer WIDTH_OFFSET = ([Load 0x424; Load 0x425], Done 65535)
  ∧ read_u16 overflow_buffer HEIGHT_OFFSET = ([Load 0x426; Load 0x427], Done 65535)
  ∧ to_png_file overflow_buffer
    = ((Load <$> seqZ 0 4) ++ (seqZ 1 15 ≫= palette_loads)
       ++ [Load 0x424; Load 0x425; Load 0x426; Load 0x427], Fault).
Proof.
  split.
  { intros width height Hw Hh Hfit. apply pixel_count_done. nia. }
  split; [apply pixel_count_overflow|].
  split; [unfold INT_MAX; lia|].
  split_and!; by vm_compute.
Qed.

(** * Further properties *)

(** ** validate_file on every buffer *)

Lemma validate_loop_missing fuel buffer i :
  0 ≤ i < SIGNATURE_LENGTH →
  at_index (data buffer) i = None →
  validate_loop (S fuel) buffer i = ([Load i], Fault).
Proof.
  intros Hi Hb. cbn [validate_loop]. rewrite decide_True by lia.
  unfold SIGNATURE_OFFSET, SIGNATURE_LENGTH, to_u64 in *.
  rewrite Z.add_0_l, !Z.mod_small by lia.
  by rewrite (load_None _ _ Hb).
Qed.

(** [k] is the length of the longest common prefix of the buffer and the
    signature: validate_file loads the offsets 0 to [k] (0 to 3 when the
    whole signature is there), and answers true for [k = 4], false when
    byte [k] is there and differs, and leaves the buffer when it is not
    there. *)
Lemma validate_file_prefix buffer :
  ∃ k : nat,
    (k ≤ 4)%nat
    ∧ take k (data buffer) = take k ExpectedSignature
    ∧ ((k < 4)%nat → data buffer !! k ≠ ExpectedSignature !! k)
    ∧ validate_file buffer
      = (Load <$> seqZ 0 (Z.of_nat (k `min` 3) + 1),
         if decide (k = 4%nat) then Done true
         else if decide (k < length (data buffer))%nat then Done false
         else Fault).
Proof.
  destruct buffer as [d sz]. unfold validate_file.
  change (Z.to_nat SIGNATURE_LENGTH) with 4%nat. cbn [data].
  destruct d as [|b0 d].
  { exists 0%nat. split_and!; [lia|done|done|done]. }
  rewrite (validate_loop_step _ _ 0 b0 x47) by done.
  case_decide as H0.
  { exists 0%nat. split_and!; [lia|done| |done]. cbn. congruence. }
  subst b0. destruct d as [|b1 d].
  { exists 1%nat. split_and!; [lia|done|done|done]. }
  rewrite (validate_loop_step _ _ (0 + 1) b1 x41) by done.
  case_decide as H1.
  { exists 1%nat. split_and!; [lia|done| |done]. cbn. congruence. }
  subst b1. destruct d as [|b2 d].
  { exists 2%nat. split_and!; [lia|done|done|done]. }
  rewrite (validate_loop_step _ _ (0 + 1 + 1) b2 x4e) by done.
  case_decide as H2.
  { exists 2%nat. split_and!; [lia|done| |done]. cbn. congruence. }
  subst b2. destruct d as [|b3 d].
  { exists 3%nat. split_and!; [lia|done|done|done]. }
  rewrite (validate_loop_step _ _ (0 + 1 + 1 + 1) b3 x10) by done.
  case_decide as H3.
  { exists 3%nat. split_and!; [lia|done| |done]. cbn. congruence. }
  subst b3. exists 4%nat. split_and!; [lia|done|lia|done].
Qed.

Lemma validate_file_sig buffer :
  take 4 (data buffer) = ExpectedSignature →
  validate_file buffer = (Load <$> seqZ 0 4, Done true).
Proof.
  intros Hsig. destruct (validate_file_prefix buffer) as (k & Hk & Hpre & Hne & ->).
  destruct (decide (k = 4%nat)) as [->|Hk4]; [done|]. exfalso.
  apply Hne; [lia|].
  rewrite <- Hsig. rewrite lookup_take_lt by lia. done.
Qed.

Lemma validate_file_true_inv buffer t :
  validate_file buffer = (t, Done true) →
  take 4 (data buffer) = ExpectedSignature.
Proof.
  destruct (validate_file_prefix buffer) as (k & Hk & Hpre & Hne & ->).
  destruct (decide (k = 4%nat)) as [->|Hk4]; [by intros _|].
  by case_decide.
Qed.

(** X1: validate_file on every buffer, short ones included.  With k the
    length of the longest common prefix of the buffer and the signature
    (at most 4), it loads exactly the offsets 0..min(k,3), returns true
    when k = 4, false when byte k exists and differs from the signature,
    and reads past the end of the buffer (offset k = its length) when the
    buffer is a proper prefix of the signature.  So it returns true only on
    the signature, and it leaves the buffer only on a proper prefix. *)
Theorem X1_validate_file_cases buffer :
  (∃ k : nat,
     (k ≤ 4)%nat
     ∧ take k (data buffer) = take k ExpectedSignature
     ∧ ((k < 4)%nat → data buffer !! k ≠ ExpectedSignature !! k)
     ∧ validate_file buffer
       = (Load <$> seqZ 0 (Z.of_nat (k `min` 3) + 1),
          if decide (k = 4%nat) then Done true
          else if decide (k < length (data buffer))%nat then Done false
          else Fault))
  ∧ (result (validate_file buffer) = Done true
     ↔ take 4 (data buffer) = ExpectedSignature)
  ∧ (result (validate_file buffer) = Fault
     ↔ (length (data buffer) < 4)%nat
       ∧ data buffer = take (length (data buffer)) ExpectedSignature).
Proof.
  split; [apply validate_file_prefix|]. split.
  - split.
    + destruct (validate_file buffer) as [t r] eqn:E. cbn. intros ->.
      by eapply validate_file_true_inv.
    + intros Hsig. by rewrite validate_file_sig.
  - destruct (validate_file_prefix buffer) as (k & Hk & Hpre & Hne & ->).
    cbn [result snd].
    assert (k ≤ length (data buffer))%nat as Hkl.
    { apply (f_equal length) in Hpre. rewrite !length_take in Hpre.
      change (length ExpectedSignature) with 4%nat in Hpre. lia. }
    split.
    + repeat case_decide; try done. intros _.
      assert (length (data buffer) = k) as Hlen by lia.
      split; [lia|]. rewrite Hlen, <- Hpre, <- Hlen. by rewrite take_ge.
    + intros [Hlt Hd]. repeat case_decide; try done.
      * subst k. lia.
      * exfalso. apply Hne; [lia|]. rewrite Hd.
        rewrite lookup_take_lt by lia. done.
Qed.

(** ** A run depends on the bytes it loads only *)

Lemma loads_app t1 t2 : loads (t1 ++ t2) = loads t1 ++ loads t2.
Proof. apply omap_app. Qed.

Lemma agree_on_app offs1 offs2 b b' :
  agree_on (offs1 ++ offs2) b b' ↔ agree_on offs1 b b' ∧ agree_on offs2 b b'.
Proof.
  unfold agree_on. split.
  - intros H. split; intros off x Hin; apply H; apply elem_of_app; auto.
  - intros [H1 H2] off x [Hin|Hin]%elem_of_app; auto.
Qed.

Section transfers.
Context (b b' : Buffer).

Lemma transfers_same {A} (m : run A) : transfers b b' m m.
Proof. by intros t a Hm _. Qed.

Lemma transfers_load off : transfers b b' (load b off) (load b' off).
Proof.
  intros t x Hrun Hag. pose proof (load_done_inv _ _ _ _ Hrun) as Hx.
  rewrite (load_Some _ _ _ Hx) in Hrun. injection Hrun as <-.
  apply load_Some. apply Hag; [|done]. by left.
Qed.

Lemma transfers_bind {A B} (m m' : run A) (f f' : A → run B) :
  transfers b b' m m' → (∀ a, transfers b b' (f a) (f' a)) →
  transfers b b' (m ≫= f) (m' ≫= f').
Proof.
  intros Hm Hf t y Hrun Hag.
  apply run_bind_done_inv in Hrun as (t1 & a & t2 & Hrun1 & Hrun2 & ->).
  rewrite loads_app in Hag. apply agree_on_app in Hag as [Hag1 Hag2].
  rewrite (Hm _ _ Hrun1 Hag1), run_bind_done, (Hf _ _ _ Hrun2 Hag2). done.
Qed.

Lemma transfers_for_u64 {S} fuel i bound step (body body' : Z → S → run S) s :
  (∀ i s, transfers b b' (body i s) (body' i s)) →
  transfers b b' (for_u64 fuel i bound step body s)
    (for_u64 fuel i bound step body' s).
Proof.
  intros Hbody. revert i s. induction fuel as [|fuel IH]; intros i s.
  { by intros t a. }
  cbn [for_u64]. case_decide; [|apply transfers_same].
  apply transfers_bind; [apply Hbody|]. intros s'. apply IH.
Qed.

Lemma transfers_validate_loop fuel i :
  transfers b b' (validate_loop fuel b i) (validate_loop fuel b' i).
Proof.
  revert i. induction fuel as [|fuel IH]; intros i.
  { by intros t a. }
  cbn [validate_loop]. case_decide; [|apply transfers_same].
  apply transfers_bind; [apply transfers_load|]. intros x.
  destruct (at_index ExpectedSignature i); [|apply transfers_same].
  case_decide; [apply transfers_same|apply IH].
Qed.

Lemma transfers_read_u16 off :
  transfers b b' (read_u16 b off) (read_u16 b' off).
Proof.
  unfold read_u16.
  apply transfers_bind; [apply transfers_load|]. intros lo.
  apply transfers_bind; [apply transfers_load|]. intros hi.
  apply transfers_same.
Qed.

Lemma transfers_read_palette :
  transfers b b' (read_palette b) (read_palette b').
Proof.
  unfold read_palette. apply transfers_for_u64. intros i pal.
  unfold palette_body.
  apply transfers_bind; [apply transfers_load|]. intros r.
  apply transfers_bind; [apply transfers_load|]. intros g.
  apply transfers_bind; [apply transfers_load|]. intros bl.
  apply transfers_same.
Qed.

Lemma transfers_unpack_pixels palette width height pixeldata :
  transfers b b' (unpack_pixels b palette width height pixeldata)
    (unpack_pixels b' palette width height pixeldata).
Proof.
  unfold unpack_pixels. apply transfers_for_u64. intros y pix.
  unfold unpack_row. apply transfers_for_u64. intros x pix'.
  unfold pair_body.
  apply transfers_bind; [apply transfers_load|]. intros byte.
  apply transfers_same.
Qed.

Lemma transfers_to_png_file :
  transfers b b' (to_png_file b) (to_png_file b').
Proof.
  unfold to_png_file. unfold validate_file.
  apply transfers_bind; [apply transfers_validate_loop|]. intros valid.
  destruct valid; cbn [negb]; [|apply transfers_same].
  apply transfers_bind; [apply transfers_read_palette|]. intros palette.
  apply transfers_bind; [apply transfers_read_u16|]. intros width.
  apply transfers_bind; [apply transfers_read_u16|]. intros height.
  apply transfers_bind; [apply transfers_same|]. intros count.
  apply transfers_bind; [apply transfers_unpack_pixels|]. intros pixeldata.
  apply transfers_same.
Qed.

End transfers.

(** ** The files the conversion gets through *)

Lemma pair_coords_nil width height :
  0 ≤ width → 0 ≤ height → width * height = 0 → pair_coords width height = [].
Proof.
  intros Hw Hh Hz. unfold pair_coords.
  destruct (decide (height = 0)) as [->|Hne]; [done|].
  assert (width = 0) as -> by nia.
  rewrite steps_nil by lia.
  induction (seqZ 0 height) as [|y l IH]; [done|]. done.
Qed.

Lemma header_range buffer :
  0 ≤ header_width buffer < 2 ^ 16 ∧ 0 ≤ header_height buffer < 2 ^ 16.
Proof. split; apply le16_range. Qed.

Lemma read_header_done buffer off :
  0 ≤ off → off + 1 < Z.of_nat (length (data buffer)) → off < 2 ^ 16 →
  read_u16 buffer off
  = ([Load off; Load (off + 1)],
     Done (le16 (byte_at buffer off) (byte_at buffer (off + 1)))).
Proof.
  intros H0 Hlen Hoff. apply read_u16_done; [lia|..]; apply byte_at_Some; lia.
Qed.

(** The run of a convertible file, in closed form. *)
Lemma to_png_file_convertible buffer :
  convertible buffer →
  to_png_file buffer
  = (expected_trace buffer, Done (Written (expected_call buffer))).
Proof.
  intros (Hsig & Hlen & Hdim).
  destruct (header_range buffer) as [Hw Hh].
  unfold to_png_file, expected_trace, expected_call.
  rewrite (validate_file_sig _ Hsig), run_bind_done. cbn [negb].
  rewrite (read_palette_done _ Hlen), run_bind_done.
  unfold PALETTE_OFFSET in Hlen.
  rewrite (read_header_done buffer WIDTH_OFFSET)
    by (unfold WIDTH_OFFSET; lia).
  rewrite run_bind_done.
  rewrite (read_header_done buffer HEIGHT_OFFSET)
    by (unfold HEIGHT_OFFSET; lia).
  rewrite run_bind_done.
  fold (decoded_palette buffer).
  change (le16 (byte_at buffer WIDTH_OFFSET) (byte_at buffer (WIDTH_OFFSET + 1)))
    with (header_width buffer).
  change (le16 (byte_at buffer HEIGHT_OFFSET)
            (byte_at buffer (HEIGHT_OFFSET + 1)))
    with (header_height buffer).
  assert (0 ≤ header_width buffer * header_height buffer ≤ INT_MAX) as Hfit.
  { unfold INT_MAX. destruct Hdim as [->|(_ & ? & _)]; [lia|nia]. }
  rewrite (pixel_count_done _ _ Hfit), run_bind_ret.
  assert (Z.of_nat (length (alloc_pixeldata
            (header_width buffer * header_height buffer)))
          = header_width buffer * header_height buffer * 4) as Halloc.
  { apply length_alloc_pixeldata. destruct Hdim as [->|(_ & ? & _)]; [done|nia]. }
  assert (unpack_pixels buffer (decoded_palette buffer) (header_width buffer)
            (header_height buffer)
            (alloc_pixeldata (header_width buffer * header_height buffer))
          = (seqZ 0 (header_width buffer * header_height buffer / 2)
             ≫= pair_events buffer (decoded_palette buffer),
             Done (seqZ 0 (header_width buffer * header_height buffer)
                   ≫= pixel_color buffer (decoded_palette buffer)))) as ->.
  { destruct Hdim as [Hz|(Hev & Hsmall & Hbuf)].
    - rewrite unpack_pixels_spec by done. unfold unpack_spec.
      rewrite pair_coords_nil by (done || lia). rewrite Hz in *.
      destruct (alloc_pixeldata 0) as [|? ?]; [done|].
      cbn in Halloc. lia.
    - apply unpack_pixels_even; try done. apply wf_read_palette. }
  rewrite run_bind_done. unfold trace, result. cbn [fst snd].
  unfold mret, run_mret, run_ret. rewrite app_nil_r.
  unfold PIXEL_STRIDE. rewrite !to_int_small by lia.
  done.
Qed.

Lemma read_palette_done_inv buffer t palette :
  read_palette buffer = (t, Done palette) →
  PALETTE_OFFSET + 63 ≤ Z.of_nat (length (data buffer)).
Proof.
  unfold read_palette. rewrite for_u64_steps by (by vm_compute).
  intros Hrun.
  apply (foldM_done_elem (λ _, True)) in Hrun as [_ Hall]; [|done..].
  destruct (Hall 15) as (s1 & t1 & s2 & _ & Hstep).
  { apply elem_of_steps; [lia|]. by vm_compute. }
  unfold palette_body in Hstep.
  bind_inv Hstep r Hr. bind_inv Hstep g Hg. bind_inv Hstep bl Hb.
  apply load_done_inv, at_index_length in Hb.
  revert Hb. unfold PALETTE_OFFSET, PIXEL_STRIDE, to_u64.
  change ((1072 + (15 * 4) `mod` 2 ^ 64) `mod` 2 ^ 64) with 1132.
  change ((1132 + 2) `mod` 2 ^ 64) with 1134. lia.
Qed.

Lemma pair_at_done_load buffer palette i1 pixels t pixels' :
  pair_at buffer palette i1 pixels = (t, Done pixels') →
  IMAGE_OFFSET + i1 / 2 < Z.of_nat (length (data buffer)).
Proof.
  unfold pair_at. intros Hrun. bind_inv Hrun b Hb.
  apply load_done_inv, at_index_length in Hb. lia.
Qed.

(** A run of the loops that ends has no pixel, or an even width, a pixel
    buffer that covers every pixel and a bitmap that holds them all. *)
Lemma unpack_pixels_done_even buffer palette width height pixeldata t pixeldata' :
  0 ≤ width < 2 ^ 16 → 0 ≤ height < 2 ^ 16 →
  Z.of_nat (length pixeldata) ≤ width * height * 4 →
  unpack_pixels buffer palette width height pixeldata = (t, Done pixeldata') →
  width * height = 0
  ∨ (Z.even width = true
     ∧ Z.of_nat (length pixeldata) = width * height * 4
     ∧ IMAGE_OFFSET + width * height / 2 ≤ Z.of_nat (length (data buffer))).
Proof.
  intros Hw Hh Hsize. rewrite unpack_pixels_spec by done. unfold unpack_spec.
  intros Hrun.
  destruct (decide (width * height = 0)) as [|Hne]; [by left|right].
  assert (0 < width ∧ 0 < height) as [Hw0 Hh0] by nia.
  apply (foldM_done_elem (λ s : list byte, length s = length pixeldata))
    in Hrun as [_ Hall]; [|done|].
  2:{ intros [y x] s t' s' _ [_ Hl]%pair_at_done_inv Hs. congruence. }
  pose proof (Z.div_mod (width - 1) 2) as Hdm.
  pose proof (Z.mod_pos_bound (width - 1) 2) as Hmb.
  destruct (Hall (height - 1, 2 * ((width - 1) / 2)))
    as (s1 & t1 & s2 & Hs1 & Hstep).
  { apply elem_of_pair_coords. split_and!; try lia.
    rewrite Z.mul_comm. apply Z.mod_mul. lia. }
  pose proof (pair_at_done_load _ _ _ _ _ _ Hstep) as Hload.
  apply pair_at_done_inv in Hstep as [Hb _]. rewrite Hs1 in Hb.
  assert ((width - 1) mod 2 = 1) as Hpar by nia.
  assert (width = 2 * ((width - 1) / 2 + 1)) as Hwm by lia.
  set (m := (width - 1) / 2 + 1) in *.
  replace ((width - 1) / 2) with (m - 1) in * by lia.
  assert (0 < m) by lia.
  split_and!.
  - rewrite Hwm, Z.even_mul. done.
  - nia.
  - replace ((height - 1) * width + 2 * (m - 1))
      with (-1 * 2 + width * height) in Hload by nia.
    rewrite Z.div_add_l in Hload by lia.
    assert (width * height / 2 = m * height); [|lia].
    rewrite Hwm. replace (2 * m * height) with (m * height * 2) by lia.
    by rewrite Z.div_mul by lia.
Qed.

Lemma length_alloc_le count :
  0 ≤ count → Z.of_nat (length (alloc_pixeldata count)) ≤ count * 4.
Proof.
  intros Hc. unfold alloc_pixeldata, PIXEL_STRIDE, to_u32.
  rewrite length_replicate.
  pose proof (Z.mod_le (4 * count) (2 ^ 32)).
  pose proof (Z.mod_pos_bound (4 * count) (2 ^ 32)). lia.
Qed.

Lemma length_alloc_lt count :
  0 ≤ count → Z.of_nat (length (alloc_pixeldata count)) = count * 4 →
  count < 2 ^ 30.
Proof.
  intros Hc. unfold alloc_pixeldata, PIXEL_STRIDE, to_u32.
  rewrite length_replicate.
  pose proof (Z.mod_pos_bound (4 * count) (2 ^ 32)). lia.
Qed.

Lemma to_png_file_done_inv buffer t call :
  to_png_file buffer = (t, Done (Written call)) → convertible buffer.
Proof.
  unfold to_png_file. intros Hrun.
  apply run_bind_done_inv in Hrun as (tv & valid & ? & Hv & Hrun & _).
  destruct valid; cbn [negb] in Hrun; [|by injection Hrun].
  apply validate_file_true_inv in Hv.
  apply run_bind_done_inv in Hrun as (tp & palette & ? & Hpal & Hrun & _).
  apply read_palette_done_inv in Hpal.
  apply run_bind_done_inv in Hrun as (tw & width & ? & Hwidth & Hrun & _).
  apply run_bind_done_inv in Hrun as (th & height & ? & Hheight & Hrun & _).
  apply run_bind_done_inv in Hrun as (tc & count & ? & Hcount & Hrun & _).
  bind_inv Hrun pixels Hunpack.
  unfold PALETTE_OFFSET in Hpal.
  rewrite (read_header_done buffer WIDTH_OFFSET) in Hwidth
    by (unfold WIDTH_OFFSET; lia).
  rewrite (read_header_done buffer HEIGHT_OFFSET) in Hheight
    by (unfold HEIGHT_OFFSET; lia).
  injection Hwidth as _ <-. injection Hheight as _ <-.
  change (le16 (byte_at buffer WIDTH_OFFSET) (byte_at buffer (WIDTH_OFFSET + 1)))
    with (header_width buffer) in *.
  change (le16 (byte_at buffer HEIGHT_OFFSET)
            (byte_at buffer (HEIGHT_OFFSET + 1)))
    with (header_height buffer) in *.
  destruct (header_range buffer) as [Hw Hh].
  apply pixel_count_done_inv in Hcount as (_ & -> & _); [|lia|lia].
  assert (0 ≤ header_width buffer * header_height buffer) by nia.
  apply unpack_pixels_done_even in Hunpack as [Hz|(Hev & Hfull & Hbuf)];
    [| |done|done|by apply length_alloc_le].
  - split_and!; [done|unfold PALETTE_OFFSET; done|by left].
  - split_and!; [done|unfold PALETTE_OFFSET; done|right].
    split_and!; [done|by apply length_alloc_lt|done].
Qed.

Lemma to_png_file_done_call buffer t call :
  to_png_file buffer = (t, Done (Written call)) →
  convertible buffer ∧ t = expected_trace buffer ∧ call = expected_call buffer.
Proof.
  intros Hrun. pose proof (to_png_file_done_inv _ _ _ Hrun) as Hc.
  rewrite (to_png_file_convertible _ Hc) in Hrun.
  by injection Hrun as <- <-.
Qed.

Lemma to_png_file_skipped buffer (k : nat) :
  (k < 4)%nat → (k < length (data buffer))%nat →
  take k (data buffer) = take k ExpectedSignature →
  data buffer !! k ≠ ExpectedSignature !! k →
  to_png_file buffer = (Load <$> seqZ 0 (Z.of_nat k + 1), Done Skipped).
Proof.
  intros Hk Hlen Hpre Hne. unfold to_png_file.
  destruct (validate_file_prefix buffer) as (k' & Hk' & Hpre' & Hne' & ->).
  assert (k' = k) as ->.
  { destruct (Nat.lt_trichotomy k' k) as [Hlt|[->|Hgt]]; [|done|]; exfalso.
    - apply Hne'; [lia|].
      rewrite <- (lookup_take_lt (data buffer) k k') by done.
      rewrite <- (lookup_take_lt ExpectedSignature k k') by done.
      by rewrite Hpre.
    - apply Hne.
      rewrite <- (lookup_take_lt (data buffer) k' k) by done.
      rewrite <- (lookup_take_lt ExpectedSignature k' k) by done.
      by rewrite Hpre'. }
  rewrite decide_False by lia. rewrite decide_True by lia.
  rewrite run_bind_done. cbn [negb]. unfold trace, result. cbn [fst snd].
  unfold mret, run_mret, run_ret. rewrite app_nil_r.
  by replace (k `min` 3)%nat with k by lia.
Qed.

(** ** The loop over the directory *)

Lemma to_png_entry_run entry calls :
  to_png_entry entry calls
  = (entry_trace entry,
     match entry with
     | Other => Done calls
     | Regular f =>
         match result (to_png_file (readFromFile f)) with
         | Done Skipped => Done calls
         | Done (Written c) => Done (calls ++ [c])
         | Fault => Fault
         | OutOfFuel => OutOfFuel
         end
     end).
Proof.
  destruct entry as [f|]; [|done]. unfold to_png_entry, entry_trace.
  destruct (to_png_file (readFromFile f)) as [t [[|c]| |]]; try done;
    rewrite run_bind_done; unfold trace, result; cbn; by rewrite app_nil_r.
Qed.

Lemma to_png_entry_done entry calls t calls' :
  to_png_entry entry calls = (t, Done calls') →
  t = entry_trace entry
  ∧ calls' = calls ++ option_list (converted entry)
  ∧ entry_ends entry.
Proof.
  rewrite to_png_entry_run. unfold converted, entry_ends.
  destruct entry as [f|].
  - destruct (result (to_png_file (readFromFile f))) as [[|c]| |]; try done;
      intros [= <- <-]; cbn; rewrite ?app_nil_r; eauto.
  - intros [= <- <-]. cbn. by rewrite app_nil_r.
Qed.

Lemma to_png_entries_done entries :
  ∀ calls t calls',
    to_png_entries entries calls = (t, Done calls') →
    t = entries ≫= entry_trace
    ∧ calls' = calls ++ omap converted entries
    ∧ Forall entry_ends entries.
Proof.
  induction entries as [|e entries IH]; intros calls t calls' Hrun.
  { injection Hrun as <- <-. by rewrite app_nil_r. }
  cbn [to_png_entries] in Hrun.
  apply run_bind_done_inv in Hrun as (t1 & calls1 & t2 & He & Hrest & ->).
  apply to_png_entry_done in He as (-> & -> & Hend).
  apply IH in Hrest as (-> & -> & Hall).
  split_and!; [done| |by constructor].
  cbn [omap list_omap]. destruct (converted e); cbn; by rewrite <- ?app_assoc.
Qed.

Lemma to_png_entries_ends entries :
  Forall entry_ends entries →
  ∀ calls,
    to_png_entries entries calls
    = (entries ≫= entry_trace, Done (calls ++ omap converted entries)).
Proof.
  induction 1 as [|e entries He Hall IH]; intros calls.
  { cbn. by rewrite app_nil_r. }
  cbn [to_png_entries]. rewrite to_png_entry_run.
  assert (match e with
          | Other => Done calls
          | Regular f =>
              match result (to_png_file (readFromFile f)) with
              | Done Skipped => Done calls
              | Done (Written c) => Done (calls ++ [c])
              | Fault => Fault
              | OutOfFuel => OutOfFuel
              end
          end = Done (calls ++ option_list (converted e))) as ->.
  { unfold converted. destruct e as [f|]; [|cbn; by rewrite app_nil_r].
    destruct He as [r ->]. destruct r; cbn; by rewrite ?app_nil_r. }
  rewrite run_bind_done, IH. unfold trace, result. cbn [fst snd].
  cbn [omap list_omap]. destruct (converted e); cbn; by rewrite <- ?app_assoc.
Qed.

(** ** The skip of an unsigned file and the directory loop *)

(** X3: a file that differs from the signature is skipped without being
    decoded.  If byte k (k < 4) is the first that differs, the conversion
    loads the offsets 0..k only, touches neither palette, header nor bitmap,
    stores nothing, and the turn of the directory loop leaves the list of
    PNG calls as it was. *)
Theorem X3_wrong_signature_skipped buffer (k : nat) :
  (k < 4)%nat → (k < length (data buffer))%nat →
  take k (data buffer) = take k ExpectedSignature →
  data buffer !! k ≠ ExpectedSignature !! k →
  to_png_file buffer = (Load <$> seqZ 0 (Z.of_nat k + 1), Done Skipped)
  ∧ (∀ f calls, readFromFile f = buffer →
       to_png_entry (Regular f) calls
       = (Load <$> seqZ 0 (Z.of_nat k + 1), Done calls)).
Proof.
  intros Hk Hlen Hpre Hne.
  pose proof (to_png_file_skipped buffer k Hk Hlen Hpre Hne) as Hrun.
  split; [done|]. intros f calls <-.
  rewrite to_png_entry_run. unfold entry_trace. by rewrite Hrun.
Qed.

Lemma X3_wrong_signature_skipped_witness :
  to_png_file (buffer_of unsigned_bytes)
  = ([Load 0; Load 1; Load 2; Load 3], Done Skipped).
Proof.
  apply (X3_wrong_signature_skipped (buffer_of unsigned_bytes) 3);
    [cbn; lia|cbn; lia|reflexivity|by vm_compute].
Defined.

(** X4: the directory loop adds the results of the files one after the
    other and keeps nothing else from one file to the next.  A run of to_png
    on a directory that ends returns true, its PNG calls are, in directory
    order, the calls of the entries converted on their own, and its accesses
    are theirs in sequence; conversely it ends whenever the conversion of
    every regular file ends.  On a path that is not a directory it returns
    false without touching anything. *)
Theorem X4_directory_loop entries :
  (∀ t r, to_png (Some entries) = (t, Done r) →
     r = (true, omap converted entries)
     ∧ t = entries ≫= entry_trace
     ∧ Forall entry_ends entries)
  ∧ (Forall entry_ends entries →
     to_png (Some entries)
     = (entries ≫= entry_trace, Done (true, omap converted entries)))
  ∧ to_png None = ([], Done (false, [])).
Proof.
  split_and!; [| |done].
  - intros t r Hrun. unfold to_png in Hrun.
    apply run_bind_done_inv in Hrun as (t1 & calls & t2 & Hcalls & Hret & ->).
    injection Hret as <- <-.
    apply to_png_entries_done in Hcalls as (-> & -> & Hall).
    by rewrite app_nil_r.
  - intros Hall. unfold to_png. rewrite (to_png_entries_ends _ Hall).
    rewrite run_bind_done. unfold trace, result. cbn. by rewrite app_nil_r.
Qed.

(** ** Which files are converted *)

(** X5: the conversion of a file ends with a call of the PNG writer exactly
    when the file starts with the signature, holds the palette bytes the
    decoder reads (at least 0x46F bytes), and either has no pixel (width or
    height 0) or has an even width, fewer than 2^30 pixels and all the
    width * height / 2 bytes of its bitmap.  Every other signed file takes
    the program into undefined behaviour: an access out of bounds or, from
    2^31 pixels on, the signed overflow of width * height. *)
Theorem X5_conversion_succeeds_iff buffer :
  ((∃ t call, to_png_file buffer = (t, Done (Written call)))
   ↔ convertible buffer)
  ∧ (take 4 (data buffer) = ExpectedSignature → ¬ convertible buffer →
     result (to_png_file buffer) = Fault).
Proof.
  split.
  - split.
    + intros (t & call & Hrun). by eapply to_png_file_done_inv.
    + intros Hc. eexists _, _. by apply to_png_file_convertible.
  - intros Hsig Hnc.
    destruct (to_png_file buffer) as [t [[|call]| |]] eqn:Hrun; cbn.
    + exfalso. revert Hrun. unfold to_png_file.
      rewrite (validate_file_sig _ Hsig), run_bind_done. cbn [negb].
      intros [= _ Hr].
      destruct (read_palette buffer ≫= _) as [t' r'] eqn:Hrest.
      cbn in Hr. subst r'.
      apply run_bind_done_inv in Hrest as (? & ? & ? & _ & Hrest & _).
      apply run_bind_done_inv in Hrest as (? & ? & ? & _ & Hrest & _).
      apply run_bind_done_inv in Hrest as (? & ? & ? & _ & Hrest & _).
      apply run_bind_done_inv in Hrest as (? & ? & ? & _ & Hrest & _).
      apply run_bind_done_inv in Hrest as (? & ? & ? & _ & Hrest & _).
      by injection Hrest.
    + exfalso. apply Hnc. by eapply to_png_file_done_inv.
    + done.
    + exfalso. by eapply to_png_file_fuel; rewrite Hrun.
Qed.

(** X6: a signed file whose width or height field is 0 is converted to an
    image without pixel data.  The conversion reads the signature, the
    palette and the four header bytes, no byte of the bitmap region (the
    file may end right after the palette), stores nothing, and calls the
    PNG writer with the two header fields and an empty pixel buffer. *)
Theorem X6_no_pixel buffer :
  take 4 (data buffer) = ExpectedSignature →
  PALETTE_OFFSET + 63 ≤ Z.of_nat (length (data buffer)) →
  header_width buffer * header_height buffer = 0 →
  to_png_file buffer
  = ((Load <$> seqZ 0 4) ++ (seqZ 1 15 ≫= palette_loads)
     ++ [Load 0x424; Load 0x425; Load 0x426; Load 0x427],
     Done (Written {| png_w := header_width buffer;
                      png_h := header_height buffer;
                      png_comp := 4;
                      png_data := [];
                      png_stride := header_width buffer * 4 |})).
Proof.
  intros Hsig Hlen Hz.
  rewrite to_png_file_convertible by (split_and!; [done|done|by left]).
  unfold expected_trace, expected_call. rewrite Hz. done.
Qed.

Lemma X6_no_pixel_witness :
  ∃ t,
    to_png_file empty_image_buffer
    = (t, Done (Written {| png_w := 0; png_h := 5; png_comp := 4;
                           png_data := []; png_stride := 0 |}))
    ∧ length (data empty_image_buffer) = 0x46F%nat.
Proof.
  eexists. split; [|reflexivity].
  apply (X6_no_pixel empty_image_buffer); by vm_compute.
Defined.

(** ** The image of a converted file *)

Lemma decoded_palette_row buffer i :
  0 ≤ i < 16 →
  at_index (decoded_palette buffer) i
  = Some (if decide (i = 0) then [x00; x00; x00; x00]
          else palette_entry buffer i).
Proof.
  intros Hi. apply at_index_Some. split; [lia|]. unfold decoded_palette.
  case_decide as Hz; [by subst|].
  replace (Z.to_nat i) with (S (Z.to_nat (i - 1))) by lia.
  change ((palette_entry buffer <$> seqZ 1 15) !! Z.to_nat (i - 1)
          = Some (palette_entry buffer i)).
  rewrite list_lookup_fmap, lookup_seqZ_lt by lia. cbn.
  do 2 f_equal. lia.
Qed.

Lemma pixel_index_range buffer p : 0 ≤ pixel_index buffer p < 16.
Proof.
  unfold pixel_index. pose proof (nibble_range (bitmap_byte buffer p)).
  destruct (Z.even p); lia.
Qed.

Lemma pixel_color_decoded buffer p :
  pixel_color buffer (decoded_palette buffer) p
  = if decide (pixel_index buffer p = 0) then [x00; x00; x00; x00]
    else palette_entry buffer (pixel_index buffer p).
Proof.
  unfold pixel_color.
  by rewrite (decoded_palette_row _ _ (pixel_index_range buffer p)).
Qed.

Lemma length_pixel_color_decoded buffer p :
  length (pixel_color buffer (decoded_palette buffer) p) = 4%nat.
Proof. rewrite pixel_color_decoded. by case_decide. Qed.

Lemma sample_converted :
  to_png_file sample_buffer
  = (expected_trace sample_buffer, Done (Written (expected_call sample_buffer))).
Proof. by vm_compute. Defined.

(** X7: the image of a converted file, pixel by pixel.  Whenever the
    conversion of a file ends with a call of the PNG writer, the pixel data
    has width * height * 4 bytes, and pixel p (row-major) is decided by one
    nibble of the byte at IMAGE_OFFSET + p / 2 of the file (the low nibble
    for an even p, the high one for an odd p): index 0 gives (0, 0, 0, 0)
    whatever slot 0 of the stored palette holds, and an index i > 0 gives
    the three bytes at PALETTE_OFFSET + 4 * i followed by 255. *)
Theorem X7_decoded_pixels buffer t call p :
  to_png_file buffer = (t, Done (Written call)) →
  0 ≤ p < png_w call * png_h call →
  Z.of_nat (length (png_data call)) = png_w call * png_h call * 4
  ∧ IMAGE_OFFSET + p / 2 < Z.of_nat (length (data buffer))
  ∧ pixel_at (png_data call) p
    = if decide (pixel_index buffer p = 0) then [x00; x00; x00; x00]
      else palette_entry buffer (pixel_index buffer p).
Proof.
  intros Hrun Hp.
  apply to_png_file_done_call in Hrun as ((_ & _ & Hdims) & _ & ->).
  cbn [expected_call png_w png_h png_data] in *.
  destruct Hdims as [Hz|(Heven & Hsmall & Hbitmap)]; [lia|].
  split_and!.
  - apply length_rows; [apply length_pixel_color_decoded|lia].
  - assert (p / 2 < header_width buffer * header_height buffer / 2); [|lia].
    apply Z.even_spec in Heven as [m Hm]. rewrite Hm in *.
    replace (2 * m * header_height buffer) with ((m * header_height buffer) * 2)
      in * by lia.
    rewrite Z.div_mul by lia.
    apply Z.div_lt_upper_bound; lia.
  - rewrite pixel_at_rows by (apply length_pixel_color_decoded || lia).
    apply pixel_color_decoded.
Qed.

Lemma X7_decoded_pixels_witness :
  pixel_at (png_data (expected_call sample_buffer)) 1 = [xff; x00; x00; xff]
  ∧ pixel_at (png_data (expected_call sample_buffer)) 3 = [x00; x00; x00; x00].
Proof.
  split.
  - apply (X7_decoded_pixels sample_buffer _ _ 1 sample_converted).
    by vm_compute.
  - apply (X7_decoded_pixels sample_buffer _ _ 3 sample_converted).
    by vm_compute.
Defined.

(** ** What the conversion reads *)

Lemma loads_bind {A} (f : A → list event) (l : list A) :
  loads (l ≫= f) = l ≫= λ a, loads (f a).
Proof.
  induction l as [|a l IH]; [done|].
  rewrite !bind_cons, loads_app. by rewrite IH.
Qed.

Lemma loads_fmap_Load l : loads (Load <$> l) = l.
Proof. induction l as [|a l IH]; [done|]. cbn. by f_equal. Qed.

Lemma elem_of_loads_expected buffer off :
  off ∈ loads (expected_trace buffer)
  ↔ read_region (header_width buffer * header_height buffer) off.
Proof.
  unfold expected_trace, read_region.
  rewrite !loads_app, loads_fmap_Load, !loads_bind.
  rewrite !elem_of_app, elem_of_seqZ, !list_elem_of_bind.
  unfold SIGNATURE_LENGTH, WIDTH_OFFSET, PALETTE_OFFSET, PALETTE_SIZE,
    IMAGE_OFFSET, palette_loads, pair_events, loads.
  cbn [omap option_bind list_omap mbind].
  split.
  - intros [H|[(i & Hin & Hi)|[H|(k & Hin & Hk)]]].
    + left. lia.
    + right; right; left. apply elem_of_seqZ in Hi.
      rewrite !elem_of_cons, elem_of_nil in Hin.
      unfold PALETTE_OFFSET in Hin.
      Z.div_mod_to_equations. lia.
    + right; left. rewrite !elem_of_cons, elem_of_nil in H. lia.
    + right; right; right. apply elem_of_seqZ in Hk.
      apply list_elem_of_singleton in Hin. unfold IMAGE_OFFSET in Hin. lia.
  - intros [H|[H|[[H Hm]|H]]].
    + left. lia.
    + right; right; left. rewrite !elem_of_cons, elem_of_nil. lia.
    + right; left. exists ((off - 1072) / 4). split.
      * rewrite !elem_of_cons, elem_of_nil. unfold PALETTE_OFFSET.
        Z.div_mod_to_equations. lia.
      * apply elem_of_seqZ. Z.div_mod_to_equations. lia.
    + right; right; right. exists (off - 1136). split.
      * apply list_elem_of_singleton. unfold IMAGE_OFFSET. lia.
      * apply elem_of_seqZ. lia.
Qed.

Lemma read_region_bounds buffer off :
  convertible buffer →
  read_region (header_width buffer * header_height buffer) off →
  0 ≤ off < Z.of_nat (length (data buffer)).
Proof.
  intros (_ & Hlen & Hdim).
  unfold read_region, SIGNATURE_LENGTH, WIDTH_OFFSET, PALETTE_OFFSET,
    PALETTE_SIZE, IMAGE_OFFSET in *.
  intros [H|[H|[[H Hm]|H]]]; try lia.
  - Z.div_mod_to_equations. lia.
  - destruct Hdim as [Hz|(_ & _ & Hbuf)]; [|lia].
    rewrite Hz in H. change (0 / 2) with 0 in H. lia.
Qed.

Lemma read_region_not_ignored pixels off :
  read_region pixels off → ¬ ignored off.
Proof.
  unfold read_region, ignored, SIGNATURE_LENGTH, WIDTH_OFFSET, PALETTE_OFFSET,
    PALETTE_SIZE, IMAGE_OFFSET.
  intros [H|[H|[[H Hm]|H]]] [I|[I|[I Im]]]; lia.
Qed.

Lemma to_png_file_skipped_inv buffer t :
  to_png_file buffer = (t, Done Skipped) →
  ∃ k : nat,
    (k < 4)%nat ∧ (k < length (data buffer))%nat
    ∧ t = Load <$> seqZ 0 (Z.of_nat k + 1).
Proof.
  intros Hrun.
  destruct (validate_file_prefix buffer) as (k & Hk & Hpre & Hne & Hv).
  destruct (decide (k = 4%nat)) as [->|Hk4].
  - exfalso. revert Hrun. unfold to_png_file.
    rewrite Hv, run_bind_done. cbn [negb].
    intros [= _ Hr].
    destruct (read_palette buffer ≫= _) as [t' r'] eqn:Hrest.
    cbn in Hr. subst r'.
    apply run_bind_done_inv in Hrest as (? & ? & ? & _ & Hrest & _).
    apply run_bind_done_inv in Hrest as (? & ? & ? & _ & Hrest & _).
    apply run_bind_done_inv in Hrest as (? & ? & ? & _ & Hrest & _).
    apply run_bind_done_inv in Hrest as (? & ? & ? & _ & Hrest & _).
    apply run_bind_done_inv in Hrest as (? & ? & ? & _ & Hrest & _).
    by injection Hrest.
  - destruct (decide (k < length (data buffer))%nat) as [Hlt|Hge].
    + exists k. split_and!; [lia|done|].
      rewrite (to_png_file_skipped buffer k) in Hrun by (lia || auto with lia).
      by injection Hrun as <-.
    + exfalso. unfold to_png_file in Hrun. by rewrite Hv in Hrun.
Qed.

(** Every offset a finished conversion loaded lies in the file and is none
    of the ignored ones. *)
Lemma to_png_file_loads buffer t r off :
  to_png_file buffer = (t, Done r) → off ∈ loads t →
  ¬ ignored off ∧ 0 ≤ off < Z.of_nat (length (data buffer)).
Proof.
  intros Hrun Hin. destruct r as [|call].
  - apply to_png_file_skipped_inv in Hrun as (k & Hk & Hlen & ->).
    rewrite loads_fmap_Load in Hin. apply elem_of_seqZ in Hin.
    split; [|lia]. unfold ignored, PALETTE_OFFSET, PALETTE_SIZE. lia.
  - apply to_png_file_done_call in Hrun as (Hc & -> & _).
    apply elem_of_loads_expected in Hin. split.
    + by eapply read_region_not_ignored.
    + by apply read_region_bounds.
Qed.

(** X8: the bytes a conversion reads.  A run that ends with a call of the
    PNG writer has loaded exactly the signature (offsets 0 to 3), the four
    header bytes (0x424 to 0x427), the first three bytes of the palette
    slots 1 to 15 and the width * height / 2 bytes of the bitmap from
    IMAGE_OFFSET on, all of them inside the file. *)
Theorem X8_read_set buffer t call off :
  to_png_file buffer = (t, Done (Written call)) →
  (off ∈ loads t ↔ read_region (png_w call * png_h call) off)
  ∧ (off ∈ loads t → 0 ≤ off < Z.of_nat (length (data buffer))).
Proof.
  intros Hrun.
  pose proof (to_png_file_loads buffer t (Written call) off Hrun) as Hin.
  apply to_png_file_done_call in Hrun as (Hc & -> & ->).
  split; [apply elem_of_loads_expected|]. intros H. by apply Hin.
Qed.

Lemma X8_read_set_witness :
  0x473 ∈ loads (expected_trace sample_buffer)
  ∧ 0x474 ∉ loads (expected_trace sample_buffer).
Proof.
  destruct (X8_read_set sample_buffer _ _ 0x473 sample_converted) as [H3 _].
  destruct (X8_read_set sample_buffer _ _ 0x474 sample_converted) as [H4 _].
  split.
  - apply H3. right; right; right. by vm_compute.
  - intros Hin.
    apply H4 in Hin as [[_ H]|[[_ H]|[[[_ H] _]|[_ H]]]]; by vm_compute in H.
Defined.

(** X9: the result of a conversion depends on the bytes it loaded only.  If
    the conversion of a file ends, the conversion of any other file that
    holds the same bytes at those offsets makes the same accesses and ends
    with the same result; the length of the file and the [size] field of the
    buffer play no part. *)
Theorem X9_depends_on_loaded_bytes b b' t r :
  to_png_file b = (t, Done r) →
  Forall (λ off, at_index (data b') off = at_index (data b) off) (loads t) →
  to_png_file b' = (t, Done r).
Proof.
  intros Hrun Hall. apply (transfers_to_png_file b b' t r Hrun).
  intros off x Hin Hx. rewrite Forall_forall in Hall.
  apply list_elem_of_In in Hin. by rewrite (Hall off Hin).
Qed.

Lemma X9_depends_on_loaded_bytes_witness :
  to_png_file noisy_buffer
  = (expected_trace sample_buffer, Done (Written (expected_call sample_buffer))).
Proof.
  apply (X9_depends_on_loaded_bytes sample_buffer noisy_buffer _ _
           sample_converted).
  vm_compute. repeat constructor.
Defined.

(** X10: what follows the bitmap is not looked at, and neither is the size
    the buffer records.  Appending bytes to a file whose conversion ends,
    and changing [size], changes neither the accesses nor the result. *)
Theorem X10_trailing_bytes bytes sz extra sz' t r :
  to_png_file {| data := bytes; size := sz |} = (t, Done r) →
  to_png_file {| data := bytes ++ extra; size := sz' |} = (t, Done r).
Proof.
  intros Hrun.
  apply (transfers_to_png_file _ {| data := bytes ++ extra; size := sz' |}
           t r Hrun).
  intros off x _. cbn [data]. unfold at_index.
  case_decide; [|done]. apply lookup_app_l_Some.
Qed.

Lemma X10_trailing_bytes_witness :
  to_png_file {| data := data sample_buffer ++ [x99; x98]; size := 7 |}
  = (expected_trace sample_buffer, Done (Written (expected_call sample_buffer))).
Proof.
  apply (X10_trailing_bytes (data sample_buffer) (size sample_buffer)).
  exact sample_converted.
Defined.

(** X11: the bytes between the signature and the header fields, between
    the header fields and palette slot 1 (the stored slot 0 included) and
    the fourth byte of every palette slot never influence a conversion:
    overwriting one of them in a file whose conversion ends changes neither
    the accesses nor the result. *)
Theorem X11_ignored_bytes buffer t r off x :
  to_png_file buffer = (t, Done r) → ignored off →
  to_png_file {| data := <[Z.to_nat off := x]> (data buffer);
                 size := size buffer |}
  = (t, Done r).
Proof.
  intros Hrun Hoff.
  apply (transfers_to_png_file buffer _ t r Hrun).
  intros off' y Hin Hy. cbn [data].
  destruct (to_png_file_loads buffer t r off' Hrun Hin) as [Hni Hb].
  assert (off ≠ off') as Hne by (by intros ->).
  assert (0 ≤ off) by (unfold ignored, PALETTE_OFFSET in Hoff; lia).
  unfold at_index in *. case_decide; [|done].
  rewrite list_lookup_insert_ne by lia. done.
Qed.

Lemma X11_ignored_bytes_witness :
  to_png_file {| data := <[Z.to_nat 0x430 := x42]> (data sample_buffer);
                 size := size sample_buffer |}
  = (expected_trace sample_buffer, Done (Written (expected_call sample_buffer))).
Proof.
  apply (X11_ignored_bytes sample_buffer _ _ 0x430 x42 sample_converted).
  right; left. by vm_compute.
Defined.

(** ** Where the conversion of a truncated file leaves defined behaviour *)

Lemma unpack_pixels_truncated buffer palette width height pixeldata :
  0 ≤ width < 2 ^ 16 → 0 ≤ height < 2 ^ 16 → Z.even width = true →
  wf_palette palette →
  IMAGE_OFFSET ≤ Z.of_nat (length (data buffer))
    < IMAGE_OFFSET + width * height / 2 →
  Z.of_nat (length pixeldata) = width * height * 4 →
  unpack_pixels buffer palette width height pixeldata
  = ((seqZ 0 (Z.of_nat (length (data buffer)) - IMAGE_OFFSET)
      ≫= pair_events buffer palette)
     ++ [Load (Z.of_nat (length (data buffer)))], Fault).
Proof.
  intros Hw Hh Hev Hpal Hbuf Hlen.
  rewrite unpack_pixels_spec by done. rewrite unpack_spec_indices.
  apply Z.even_spec in Hev as [m ->].
  replace (2 * m * height / 2) with (height * m) in *.
  2:{ replace (2 * m * height) with (height * m * 2) by lia.
      by rewrite Z.div_mul by lia. }
  rewrite <- (Z2Nat.id height) at 1 by lia.
  rewrite pair_indices_even by lia.
  rewrite (Z2Nat.id height) by lia.
  set (len := Z.of_nat (length (data buffer))) in *.
  set (a := len - IMAGE_OFFSET).
  assert (0 ≤ a < height * m) as Ha by lia.
  replace (height * m) with (a + (height * m - a)) by lia.
  rewrite seqZ_app by lia. rewrite fmap_app, foldM_app.
  assert (foldM (pair_at buffer palette) ((λ k, 2 * k) <$> seqZ 0 a) pixeldata
          = (seqZ 0 a ≫= pair_events buffer palette,
             Done ((seqZ 0 (2 * a) ≫= pixel_color buffer palette)
                   ++ drop (Z.to_nat (8 * a)) pixeldata))) as ->.
  { pose proof (scan_done buffer palette (Z.to_nat a) Hpal 0 []
                  (take (Z.to_nat (8 * a)) pixeldata)
                  (drop (Z.to_nat (8 * a)) pixeldata)) as Hs.
    rewrite Z2Nat.id in Hs by lia. cbn [app] in Hs.
    rewrite take_drop in Hs. apply Hs; [lia|fold len; lia|done|].
    rewrite length_take. lia. }
  rewrite run_bind_done.
  rewrite (seqZ_cons (0 + a)) by lia. rewrite fmap_cons. cbn [foldM].
  assert (∀ s, pair_at buffer palette (2 * (0 + a)) s = ([Load len], Fault))
    as ->; [|done].
  intros s. unfold pair_at.
  replace (IMAGE_OFFSET + 2 * (0 + a) / 2) with len.
  2:{ replace (2 * (0 + a)) with (a * 2) by lia.
      rewrite Z.div_mul by lia. lia. }
  rewrite load_None; [done|].
  unfold at_index. rewrite decide_True by lia.
  apply lookup_ge_None. lia.
Qed.

(** X12: where the conversion of a file cut inside its bitmap leaves
    defined behaviour.  For a signed file with an even width and fewer than
    2^30 pixels that ends after the palette but before the last of its
    width * height / 2 bitmap bytes, the conversion reads the signature, the
    palette and the header, decodes the pixel pairs of the bitmap bytes that
    are there, in order, and its next access is the load at the offset that
    equals the length of the file: the first access out of bounds.  Nothing
    in the program checks for it; what happens from there on is undefined
    and not stated here. *)
Theorem X12_truncated_bitmap buffer :
  take 4 (data buffer) = ExpectedSignature →
  Z.even (header_width buffer) = true →
  header_width buffer * header_height buffer < 2 ^ 30 →
  IMAGE_OFFSET ≤ Z.of_nat (length (data buffer))
    < IMAGE_OFFSET + header_width buffer * header_height buffer / 2 →
  to_png_file buffer
  = ((Load <$> seqZ 0 4) ++ (seqZ 1 15 ≫= palette_loads)
     ++ [Load 0x424; Load 0x425; Load 0x426; Load 0x427]
     ++ (seqZ 0 (Z.of_nat (length (data buffer)) - IMAGE_OFFSET)
         ≫= pair_events buffer (decoded_palette buffer))
     ++ [Load (Z.of_nat (length (data buffer)))],
     Fault).
Proof.
  intros Hsig Hev Hsmall Hlen.
  destruct (header_range buffer) as [Hw Hh].
  unfold to_png_file.
  rewrite (validate_file_sig _ Hsig), run_bind_done. cbn [negb].
  unfold IMAGE_OFFSET in Hlen.
  rewrite read_palette_done, run_bind_done by (unfold PALETTE_OFFSET; lia).
  rewrite (read_header_done buffer WIDTH_OFFSET)
    by (unfold WIDTH_OFFSET; lia).
  rewrite run_bind_done.
  rewrite (read_header_done buffer HEIGHT_OFFSET)
    by (unfold HEIGHT_OFFSET; lia).
  rewrite run_bind_done.
  fold (decoded_palette buffer).
  change (le16 (byte_at buffer WIDTH_OFFSET) (byte_at buffer (WIDTH_OFFSET + 1)))
    with (header_width buffer).
  change (le16 (byte_at buffer HEIGHT_OFFSET)
            (byte_at buffer (HEIGHT_OFFSET + 1)))
    with (header_height buffer).
  rewrite pixel_count_done, run_bind_ret by (unfold INT_MAX; nia).
  rewrite unpack_pixels_truncated;
    [|done|done|done|apply wf_read_palette|unfold IMAGE_OFFSET; lia|].
  2:{ apply length_alloc_pixeldata. nia. }
  unfold trace, result. cbn [fst snd mbind run_mbind run_bind].
  done.
Qed.

Lemma X12_truncated_bitmap_witness :
  result (to_png_file truncated_buffer) = Fault
  ∧ List.last (trace (to_png_file truncated_buffer)) (Load 0) = Load 0x472.
Proof.
  rewrite (X12_truncated_bitmap truncated_buffer); [done|done|done|done|].
  by vm_compute.
Defined.

(** ** How a conversion can go wrong *)


Section overrun.
Context (b : Buffer) (n : Z).













End overrun.




(** ** The copies of a conversion that reaches the writer *)

Lemma store_offsets_fmap_Load l : store_offsets (Load <$> l) = [].
Proof. by induction l. Qed.

Lemma store_offsets_expected buffer :
  convertible buffer →
  store_offsets (expected_trace buffer)
  = (λ p, p * PIXEL_STRIDE)
    <$> seqZ 0 (header_width buffer * header_height buffer).
Proof.
  intros (_ & _ & Hdim). destruct (header_range buffer) as [Hw Hh].
  unfold expected_trace.
  rewrite !store_offsets_app, store_offsets_fmap_Load.
  assert (store_offsets (seqZ 1 15 ≫= palette_loads) = []) as ->
    by (by vm_compute).
  cbn [app store_offsets omap list_omap].
  assert (2 * (header_width buffer * header_height buffer / 2)
          = header_width buffer * header_height buffer) as Hhalf.
  { destruct Hdim as [->|(Hev & _)]; [done|].
    apply Z.even_spec in Hev as [m ->].
    replace (2 * m * header_height buffer)
      with (m * header_height buffer * 2) by lia.
    rewrite Z.div_mul by lia. lia. }
  assert (0 ≤ header_width buffer * header_height buffer / 2)
    by (apply Z.div_pos; nia).
  rewrite <- (Z2Nat.id (header_width buffer * header_height buffer / 2))
    at 1 by done.
  rewrite store_offsets_pairs, Z2Nat.id by done. by rewrite Hhalf.
Qed.

(** X16: every pixel of the program's own pixel buffer is copied to exactly
    once.  Whenever the conversion of a file ends with a call of the PNG
    writer (an even width or no pixel, fewer than 2^30 pixels, the bitmap
    present), the destinations of its copies are the offsets p * 4 for
    p = 0, 1, ..., width * height - 1, in this order and each once, and every
    copy lies inside the pixel data handed to the writer. *)
Theorem X16_every_pixel_copied_once buffer t call :
  to_png_file buffer = (t, Done (Written call)) →
  store_offsets t
  = (λ p, p * PIXEL_STRIDE) <$> seqZ 0 (png_w call * png_h call)
  ∧ (∀ p, 0 ≤ p < png_w call * png_h call →
       length (filter (λ off, off = p * PIXEL_STRIDE) (store_offsets t))
       = 1%nat)
  ∧ (∀ off, off ∈ store_offsets t →
       0 ≤ off
       ∧ off + PIXEL_STRIDE ≤ Z.of_nat (length (png_data call))).
Proof.
  intros Hrun.
  apply to_png_file_done_call in Hrun as (Hc & -> & ->).
  cbn [expected_call png_w png_h png_data].
  rewrite (store_offsets_expected _ Hc).
  destruct (header_range buffer) as [Hw Hh].
  assert (0 ≤ header_width buffer * header_height buffer) by nia.
  split_and!.
  - done.
  - intros p Hp. apply filter_eq_NoDup.
    + apply NoDup_fmap_2; [|apply NoDup_seqZ].
      intros a b. unfold PIXEL_STRIDE. lia.
    + apply list_elem_of_fmap. exists p. split; [done|].
      apply elem_of_seqZ. lia.
  - intros off (p & -> & Hp%elem_of_seqZ)%list_elem_of_fmap.
    rewrite length_rows by (apply length_pixel_color_decoded || lia).
    unfold PIXEL_STRIDE. lia.
Qed.

Lemma X16_every_pixel_copied_once_witness :
  store_offsets (expected_trace sample_buffer) = [0; 4; 8; 12; 16; 20; 24; 28].
Proof.
  apply (X16_every_pixel_copied_once sample_buffer _ _ sample_converted).
Defined.
